(** * CertIntel: upload, retrieval/deletion and auth-profile adapters

    A shallow embedding of the three source files of the repository:

    - the upload route handler ([POST], with [parseFormRevised]),
    - the by-id route handlers ([GET] and [DELETE]),
    - the effect of [AuthProvider] in [src/context/AuthContext.tsx].

    The handlers are asynchronous JavaScript whose every [await] is run to
    completion before the next statement, so each is embedded as a function
    from the world before the call to the response and the world after it.
    Whatever the handler cannot decide by itself (the database driver, the
    file system, the clock, the conversion service, the random request id)
    is an answer recorded in [Env]. *)

From Stdlib Require Import Ascii String NArith.
From stdpp Require Import gmap strings list fin_maps pretty.

Set Warnings "-register-all,-clear-no-such-hyp".
Local Open Scope N_scope.

(** ** JavaScript values used by the handlers

    A string is a sequence of 8-bit characters; the handlers look into
    strings only to test them for emptiness, to search error messages, and
    to replace the characters of a file name outside [[a-zA-Z0-9_.-]]. *)

Module Js.

(** [!!s] for a string. *)
Definition truthy (s : string) : bool := negb (String.eqb s "").

(** [!!v] for a value that is a string, [null] or [undefined]. *)
Definition truthy_opt (v : option string) : bool :=
  match v with Some s => truthy s | None => false end.

(** [s.includes(sub)]. *)
Fixpoint includes (s sub : string) : bool :=
  String.prefix sub s ||
  match s with
  | EmptyString => false
  | String _ s' => includes s' sub
  end.

Definition in_range (lo hi : N) (c : ascii) : bool :=
  (lo <=? N_of_ascii c) && (N_of_ascii c <=? hi).

Definition lower_char (c : ascii) : ascii :=
  if in_range 65 90 c then ascii_of_N (N_of_ascii c + 32) else c.

(** [s.toLowerCase()], on the ASCII letters. *)
Fixpoint toLowerCase (s : string) : string :=
  match s with
  | EmptyString => EmptyString
  | String c s' => String (lower_char c) (toLowerCase s')
  end.

(** The character class [[a-zA-Z0-9_.-]]. *)
Definition is_safe_char (c : ascii) : bool :=
  in_range 97 122 c || in_range 65 90 c || in_range 48 57 c ||
  (N_of_ascii c =? 95) || (N_of_ascii c =? 46) || (N_of_ascii c =? 45).

(** [s.replace(/[^a-zA-Z0-9_.-]/g, '_')]. *)
Fixpoint sanitize (s : string) : string :=
  match s with
  | EmptyString => EmptyString
  | String c s' => String (if is_safe_char c then c else "_"%char) (sanitize s')
  end.

(** [array.includes(x)] on an array of strings. *)
Definition array_includes (l : list string) (x : string) : bool :=
  existsb (String.eqb x) l.

(** An exception value: the handlers read [name] and [message] only. *)
Record Error := mkError { name : string; message : string }.

(** [new Error(msg)]. *)
Definition new_Error (msg : string) : Error := mkError "Error" msg.

(** The engine's error for a property read or destructuring on
    [undefined] or [null]. *)
Definition TypeError (what : string) : Error :=
  mkError "TypeError" ("Cannot read properties of undefined (reading '" +:+ what +:+ "')").

(** What evaluating an expression gives: a value, or a thrown error. *)
Inductive Result (A : Type) :=
| Ok (a : A)
| Throw (e : Error).
Arguments Ok {A} a.
Arguments Throw {A} e.

(** A value produced by [JSON.parse].  A number is carried by its
    canonical decimal rendering, [String(n)]. *)
Inductive Json :=
| JNull
| JBool (b : bool)
| JNum (repr : string)
| JStr (s : string)
| JArr (items : list Json)
| JObj (props : list (string * Json)).

(** [!!v]. *)
Definition truthy_json (v : Json) : bool :=
  match v with
  | JNull => false
  | JBool b => b
  | JNum r => negb (String.eqb r "0")
  | JStr s => truthy s
  | JArr _ | JObj _ => true
  end.

(** [String(v)]: an array joins its items with commas, [null] items
    rendering as the empty string. *)
Fixpoint to_String (v : Json) : string :=
  match v with
  | JNull => "null"
  | JBool true => "true"
  | JBool false => "false"
  | JNum r => r
  | JStr s => s
  | JArr items =>
      String.concat ","
        (map (fun x => match x with JNull => EmptyString | _ => to_String x end) items)
  | JObj _ => "[object Object]"
  end.

Fixpoint assoc (k : string) (props : list (string * Json)) : option Json :=
  match props with
  | [] => None
  | (k', v) :: rest => if String.eqb k k' then Some v else assoc k rest
  end.

(** [v.k] for one of the keys the upload handler reads
    ([converted_files], [error], [originalName], [fileId], [filename],
    [pageNumber]): none of them is a member of a built-in prototype, so
    the read is [undefined] ([None]) on every value but an object that
    has the key, and throws on [null]. *)
Definition get_prop (v : Json) (k : string) : Result (option Json) :=
  match v with
  | JNull => Throw (TypeError k)
  | JObj props => Ok (assoc k props)
  | _ => Ok None
  end.

End Js.

Import Js.

(** ** Store identifiers

    An [ObjectId] is twelve bytes, kept here as a number below [2^96].  The
    driver accepts a string as an identifier when it is 24 hexadecimal
    characters, and prints an identifier as 24 lower-case hexadecimal
    characters. *)

Module ObjectId.

Definition t := N.

Definition hex_value (c : ascii) : option N :=
  if in_range 48 57 c then Some (N_of_ascii c - 48)
  else if in_range 97 102 c then Some (N_of_ascii c - 87)
  else if in_range 65 70 c then Some (N_of_ascii c - 55)
  else None.

Definition is_hex (c : ascii) : bool :=
  match hex_value c with Some _ => true | None => false end.

Fixpoint all_hex (s : string) : bool :=
  match s with
  | EmptyString => true
  | String c s' => is_hex c && all_hex s'
  end.

(** [ObjectId.isValid(s)] for a string [s]. *)
Definition isValid (s : string) : bool :=
  (N.of_nat (String.length s) =? 24) && all_hex s.

Fixpoint parse_hex (acc : N) (s : string) : N :=
  match s with
  | EmptyString => acc
  | String c s' =>
      parse_hex (16 * acc + match hex_value c with Some d => d | None => 0 end) s'
  end.

(** [new ObjectId(s)]: throws ([None]) unless [s] is valid. *)
Definition of_string (s : string) : option t :=
  if isValid s then Some (parse_hex 0 s) else None.

Definition hex_digit (d : N) : ascii :=
  if d <? 10 then ascii_of_N (48 + d) else ascii_of_N (87 + d).

Fixpoint to_hex (digits : nat) (n : N) (acc : string) : string :=
  match digits with
  | O => acc
  | S k => to_hex k (n / 16) (String (hex_digit (n mod 16)) acc)
  end.

(** [id.toString()], that is [id.toHexString()]. *)
Definition toString (id : t) : string := to_hex 24 id EmptyString.

End ObjectId.

(** ** The world the handlers run in *)

(** The [metadata] of a stored file document.  The handlers read [userId]
    only; a document written by another client may lack it. *)
Record Metadata := mkMetadata {
  md_originalName : string;
  md_userId : option string;
  md_uploadedAt : string;
  md_sourceContentType : string;
  md_explicitContentType : string;
  md_reqIdParent : string
}.

(** A document of the bucket's files collection, keyed by its [_id]. *)
Record FileDoc := mkFileDoc {
  doc_filename : string;
  doc_contentType : option string;
  doc_length : N;
  doc_metadata : option Metadata
}.

(** The calls a handler makes to the outside, in the order it makes them
    (the clean-up of scratch files is read off [fs] instead). *)
Inductive Event :=
| CallConnectToDb
| CallFormData
| WroteFile (path : string)
| CallReadFile (path : string)
| CallFetch (url : string)
| CallOpenUploadStream (filename : string)
| StoreInsert (id : ObjectId.t)
| CallFind (id : ObjectId.t)
| CallFindOne (id : ObjectId.t)
| CallOpenDownloadStream (id : ObjectId.t)
| CallBucketDelete (id : ObjectId.t).

#[global] Instance Event_eq_dec : EqDecision Event.
Proof. solve_decision. Defined.

(** An event that writes to, or deletes from, the object store. *)
Definition store_write (e : Event) : bool :=
  match e with
  | CallOpenUploadStream _ | StoreInsert _ | CallBucketDelete _ => true
  | _ => false
  end.

Record World := mkWorld {
  fs : gset string;                    (* the paths that exist on disk *)
  store : gmap ObjectId.t FileDoc;     (* the files collection of the bucket *)
  tick : nat;                          (* questions asked of the clock and the disk *)
  trace : list Event
}.

Definition set_fs (f : gset string → gset string) (w : World) : World :=
  mkWorld (f (fs w)) (store w) (tick w) (trace w).
Definition set_store (f : gmap ObjectId.t FileDoc → gmap ObjectId.t FileDoc) (w : World) : World :=
  mkWorld (fs w) (f (store w)) (tick w) (trace w).
Definition next_tick (w : World) : World :=
  mkWorld (fs w) (store w) (S (tick w)) (trace w).
Definition log (e : Event) (w : World) : World :=
  mkWorld (fs w) (store w) (tick w) (trace w ++ [e]).

(** What [connectToDb()] resolves to: the handlers test the value itself
    and its [db] and [bucket] members for presence. *)
Record DbConnection := mkDbConnection { db : bool; bucket : bool }.

Inductive DbOutcome :=
| DbThrows (e : Error)
| DbReturns (c : option DbConnection).

(** The answer of the conversion service to [fetch], with the text of the
    response and what [JSON.parse] makes of it ([None]: a [SyntaxError]). *)
Inductive FetchOutcome :=
| FetchFails (e : Error)
| FetchResponse (ok : bool) (status : N) (text : string) (json : option Json).

(** How the piping of the scratch file into the upload stream ends. *)
Inductive UploadOutcome :=
| UploadOpenThrows (e : Error)       (* openUploadStream or createReadStream throws *)
| UploadReadError (e : Error)        (* 'error' on the read stream *)
| UploadStreamError (e : Error)      (* 'error' on the upload stream *)
| UploadFinish (id : ObjectId.t) (length : N).  (* 'finish', with uploadStream.id *)

Record Env := mkEnv {
  FLASK_SERVER_URL : option string;    (* process.env.NEXT_PUBLIC_FLASK_SERVER_URL *)
  reqId : string;                      (* Math.random().toString(36).substring(2, 9) *)
  tmpdir : string;                     (* os.tmpdir() *)
  connectToDb_answer : DbOutcome;
  clock : nat → N;                     (* Date.now(), by the tick at which it is read *)
  toISOString_answer : string;         (* new Date().toISOString() *)
  writeFile_error : nat → option Error; (* arrayBuffer() or writeFile rejects, by tick *)
  readFile_error : option Error;
  fetch_answer : FetchOutcome;
  upload_answer : UploadOutcome;
  unlink_fails : string → bool;        (* unlinkSync throws on this path *)
  find_error : option Error;           (* bucket.find(...).toArray() rejects *)
  findOne_error : option Error;        (* filesCollection.findOne rejects *)
  delete_error : option Error          (* bucket.delete rejects *)
}.

(** ** Computations that read and change a state and may throw *)

Definition M (S A : Type) : Type := S → Result A * S.

Definition ret {S A} (a : A) : M S A := fun s => (Ok a, s).

Definition throw {S A} (e : Error) : M S A := fun s => (Throw e, s).

Definition bind {S A B} (m : M S A) (k : A → M S B) : M S B :=
  fun s =>
    match m s with
    | (Ok a, s') => k a s'
    | (Throw e, s') => (Throw e, s')
    end.

(** [try { m } catch (e) { h e }]. *)
Definition try_catch {S A} (m : M S A) (h : Error → M S A) : M S A :=
  fun s =>
    match m s with
    | (Ok a, s') => (Ok a, s')
    | (Throw e, s') => h e s'
    end.

Notation "'let*' x ':=' m 'in' k" := (bind m (fun x => k))
  (at level 10, x binder, k at level 200).
Notation "m ';;' k" := (bind m (fun _ => k))
  (at level 100, k at level 200, right associativity).

Definition emit (e : Event) : M World unit := fun w => (Ok tt, log e w).

(** ** Calls to the database *)

(** [connectToDb()] of [@/lib/mongodb], which is not among the sources:
    what it resolves to, or rejects with, is an answer of the environment. *)
Definition connectToDb (env : Env) : M World (option DbConnection) :=
  fun w =>
    match connectToDb_answer env with
    | DbThrows e => (Throw e, log CallConnectToDb w)
    | DbReturns c => (Ok c, log CallConnectToDb w)
    end.

(** The handler can use the database: [connectToDb()] resolved to a
    connection that has its [bucket] and its [db]. *)
Definition db_ready (env : Env) : bool :=
  match connectToDb_answer env with
  | DbReturns (Some c) => bucket c && db c
  | _ => false
  end.

(** [new ObjectId(fileId)]. *)
Definition new_ObjectId {S} (fileId : string) : M S ObjectId.t :=
  match ObjectId.of_string fileId with
  | Some id => ret id
  | None =>
      throw (mkError "BSONError"
               "input must be a 24 character hex string, 12 byte Uint8Array, or an integer")
  end.

(** [bucket.find({ _id: id }).limit(1).toArray()]. *)
Definition bucket_find (env : Env) (id : ObjectId.t) : M World (list FileDoc) :=
  fun w =>
    match find_error env with
    | Some e => (Throw e, log (CallFind id) w)
    | None => (Ok (option_list (store w !! id)), log (CallFind id) w)
    end.

(** [db.collection('images.files').findOne({ _id: id })]: the files
    collection of the bucket, which [connectToDb] is taken to open under
    the name [images]. *)
Definition findOne (env : Env) (id : ObjectId.t) : M World (option FileDoc) :=
  fun w =>
    match findOne_error env with
    | Some e => (Throw e, log (CallFindOne id) w)
    | None => (Ok (store w !! id), log (CallFindOne id) w)
    end.

(** [bucket.delete(id)]: the driver rejects when no file has the id. *)
Definition bucket_delete (env : Env) (id : ObjectId.t) : M World unit :=
  fun w =>
    match delete_error env with
    | Some e => (Throw e, log (CallBucketDelete id) w)
    | None =>
        match store w !! id with
        | Some _ => (Ok tt, set_store (delete id) (log (CallBucketDelete id) w))
        | None =>
            (Throw (mkError "MongoRuntimeError"
                      ("File not found for id " +:+ ObjectId.toString id)),
             log (CallBucketDelete id) w)
        end
    end.

(** ** Responses *)

(** An entry of the upload handler's result array.  The fields relayed from
    the conversion service are whatever JSON it sent ([None]: [undefined]). *)
Record ResultEntry := mkResultEntry {
  originalName : option Json;
  fileId : option Json;
  filename : option Json;
  contentType : string;
  pageNumber : option Json
}.

Inductive Body :=
| Message (message : string)                      (* { message } *)
| MessageKey (message errorKey : string)          (* { message, errorKey } *)
| ServerError (message errorKey reqId : string)   (* { message, errorKey, reqId } *)
| MessageError (message error : string)           (* { message, error } *)
| Results (results : list ResultEntry)            (* the result array *)
| Stream (id : ObjectId.t).                       (* the download stream of a file *)

Record Response := mkResponse {
  status : N;
  body : Body;
  headers : list (string * string)
}.

(** [NextResponse.json(body, { status })]. *)
Definition json (st : N) (b : Body) : Response := mkResponse st b [].

(** ** The by-id route: GET and DELETE *)

(** [!fileId || !ObjectId.isValid(fileId)], for a path parameter that may
    be missing. *)
Definition bad_fileId (fileId : option string) : bool :=
  match fileId with
  | None => true
  | Some s => negb (truthy s) || negb (ObjectId.isValid s)
  end.

Definition GET_try (env : Env) (fileId : string) : M World Response :=
  let* dbConnection := connectToDb env in
  let* bucket :=
    match dbConnection with
    | Some c => ret (bucket c)
    | None => throw (TypeError "bucket")
    end in
  let* objectId := new_ObjectId fileId in
  (if bucket then ret tt else throw (TypeError "bucketName"));;
  let* fileInfoArray := bucket_find env objectId in
  match fileInfoArray with
  | [] => ret (json 404 (Message "Image not found."))
  | fileInfo :: _ =>
      emit (CallOpenDownloadStream objectId);;
      let contentType :=
        match doc_contentType fileInfo with
        | Some ct => if truthy ct then ct else "application/octet-stream"
        | None => "application/octet-stream"
        end in
      ret (mkResponse 200 (Stream objectId)
             [("Content-Type", contentType);
              ("Content-Length", pretty (doc_length fileInfo));
              ("Cache-Control", "public, max-age=604800, immutable")])
  end.

Definition GET_catch (error : Error) : Response :=
  if truthy (message error) && includes (message error) "MongoDB connection error"
  then json 500 (MessageError "Database connection error." (message error))
  else if String.eqb (name error) "MongoGridFSFileNotFoundError"
          || (truthy (message error) && includes (message error) "File not found")
  then json 404 (MessageError "Image not found." (message error))
  else json 500 (MessageError "Error serving image." (message error)).

Definition GET (env : Env) (fileId : option string) (w : World) : Response * World :=
  if bad_fileId fileId then (json 400 (Message "Invalid or missing fileId."), w)
  else
    match GET_try env (default EmptyString fileId) w with
    | (Ok response, w') => (response, w')
    | (Throw error, w') => (GET_catch error, w')
    end.

(** A DELETE request: the path parameter and [searchParams.get('userId')]. *)
Record DeleteRequest := mkDeleteRequest {
  del_fileId : option string;
  del_userId : option string
}.

(** [fileMetadata.metadata?.userId !== userIdFromRequest]. *)
Definition owner_differs (fileMetadata : FileDoc) (userIdFromRequest : string) : bool :=
  match doc_metadata fileMetadata ≫= md_userId with
  | Some owner => negb (String.eqb owner userIdFromRequest)
  | None => true
  end.

Definition DELETE_try (env : Env) (fileId userIdFromRequest : string) : M World Response :=
  let* dbConnection := connectToDb env in
  let* '(db, bucket) :=
    match dbConnection with
    | Some c => ret (db c, bucket c)
    | None => throw (TypeError "db")
    end in
  let* objectId := new_ObjectId fileId in
  (if db then ret tt else throw (TypeError "collection"));;
  let* fileMetadata := findOne env objectId in
  match fileMetadata with
  | None => ret (json 404 (Message "File not found."))
  | Some fileMetadata =>
      if owner_differs fileMetadata userIdFromRequest
      then ret (json 403
                  (Message "Unauthorized: You do not have permission to delete this file."))
      else
        (if bucket then ret tt else throw (TypeError "delete"));;
        bucket_delete env objectId;;
        ret (json 200 (Message "File deleted successfully."))
  end.

Definition DELETE_catch (error : Error) : Response :=
  if truthy (message error) && includes (message error) "MongoDB connection error"
  then json 500 (MessageError "Database connection error." (message error))
  else json 500 (MessageError "Error deleting image." (message error)).

Definition DELETE (env : Env) (request : DeleteRequest) (w : World) : Response * World :=
  if negb (truthy_opt (del_userId request))
  then (json 401 (Message "Unauthorized: Missing user identification."), w)
  else if bad_fileId (del_fileId request)
  then (json 400 (Message "Invalid fileId."), w)
  else
    match DELETE_try env (default EmptyString (del_fileId request))
            (default EmptyString (del_userId request)) w with
    | (Ok response, w') => (response, w')
    | (Throw error, w') => (DELETE_catch error, w')
    end.

(** ** The upload route: parsing the form *)

Record CustomUploadedFile := mkCustomUploadedFile {
  filepath : string;
  originalFilename : option string;
  mimetype : option string;
  size : N
}.

(** A text field holds a string, or an array once the key repeats. *)
Inductive FieldValue :=
| FString (s : string)
| FArray (l : list string).

Record CustomParsedForm := mkCustomParsedForm {
  fields : gmap string FieldValue;
  files : gmap string CustomUploadedFile
}.

(** A [File] of the form data. *)
Record FileValue := mkFileValue {
  file_name : string;
  file_type : string;
  file_size : N
}.

Inductive FormValue :=
| Text (s : string)
| File (f : FileValue).

(** An upload request: what [request.formData()] resolves to, or the error
    it rejects with. *)
Record Request := mkRequest {
  formData : Result (list (string * FormValue))
}.

(** [Date.now()]. *)
Definition Date_now (env : Env) : M World N :=
  fun w => (Ok (clock env (tick w)), next_tick w).

(** [path.join(dir, name)] for a [name] without separators. *)
Definition path_join (dir name : string) : string := dir +:+ "/" +:+ name.

(** [Buffer.from(await value.arrayBuffer())] followed by
    [await fsPromises.writeFile(path, fileBuffer)]. *)
Definition writeFile (env : Env) (path : string) : M World unit :=
  fun w =>
    match writeFile_error env (tick w) with
    | Some e => (Throw e, next_tick w)
    | None => (Ok tt, log (WroteFile path) (set_fs (union {[path]}) (next_tick w)))
    end.

(** The text branch of the loop: [fields[key]] is read for truthiness, so
    an empty string stored earlier is replaced rather than extended.  (A key
    that names a member of [Object.prototype] reads that member in
    JavaScript; the handler reads [fields.userId] only, which is none.) *)
Definition add_field (key value : string) (fields : gmap string FieldValue)
  : gmap string FieldValue :=
  match fields !! key with
  | Some (FArray l) => <[key := FArray (l ++ [value])]> fields
  | Some (FString s) =>
      if truthy s then <[key := FArray [s; value]]> fields
      else <[key := FString value]> fields
  | None => <[key := FString value]> fields
  end.

(** [filesOutput[key] = file]: assigning to [__proto__] replaces the
    prototype of the object and adds no property to it. *)
Definition set_file (key : string) (file : CustomUploadedFile)
    (filesOutput : gmap string CustomUploadedFile) : gmap string CustomUploadedFile :=
  if String.eqb key "__proto__" then filesOutput else <[key := file]> filesOutput.

Definition parse_entry (env : Env) (key : string) (value : FormValue)
    (acc : CustomParsedForm) : M World CustomParsedForm :=
  match value with
  | File value =>
      let safeOriginalName := sanitize (file_name value) in
      let* now := Date_now env in
      let tempFileName :=
        "nextjs_temp_" +:+ reqId env +:+ "_" +:+ pretty now +:+ "_" +:+ safeOriginalName in
      let tempFilePath := path_join (tmpdir env) tempFileName in
      try_catch
        (writeFile env tempFilePath;;
         ret (mkCustomParsedForm (fields acc)
                (set_file key
                   (mkCustomUploadedFile tempFilePath (Some (file_name value))
                      (Some (file_type value)) (file_size value))
                   (files acc))))
        (fun error =>
           throw (new_Error ("Failed to write temporary file " +:+ file_name value
                             +:+ ": " +:+ message error)))
  | Text value =>
      ret (mkCustomParsedForm (add_field key value (fields acc)) (files acc))
  end.

(** [for (const [key, value] of formData.entries()) ...]. *)
Fixpoint parse_entries (env : Env) (entries : list (string * FormValue))
    (acc : CustomParsedForm) : M World CustomParsedForm :=
  match entries with
  | [] => ret acc
  | (key, value) :: rest =>
      let* acc' := parse_entry env key value acc in
      parse_entries env rest acc'
  end.

Definition parseFormRevised (env : Env) (req : Request) : M World CustomParsedForm :=
  emit CallFormData;;
  match formData req with
  | Throw e => throw e
  | Ok entries => parse_entries env entries (mkCustomParsedForm ∅ ∅)
  end.

(** ** The upload route: the handler *)

Definition SUPPORTED_IMAGE_TYPES : list string :=
  ["image/jpeg"; "image/png"; "image/gif"; "image/webp"].
Definition SUPPORTED_PDF_TYPE : string := "application/pdf".

(** The handler's state: the world and its two mutable locals. *)
Record PostState := mkPostState {
  world : World;
  tempFilePathsToDelete : list string;
  mainError : option Error
}.

Definition liftW {A} (m : M World A) : M PostState A :=
  fun s =>
    let '(r, w') := m (world s) in
    (r, mkPostState w' (tempFilePathsToDelete s) (mainError s)).

Definition liftR {S A} (r : Result A) : M S A := fun s => (r, s).

(** [mainError = e; throw mainError;]. *)
Definition throw_main {A} (e : Error) : M PostState A :=
  fun s => (Throw e, mkPostState (world s) (tempFilePathsToDelete s) (Some e)).

(** [Object.values(files).forEach(f => { if (f?.filepath) push(f.filepath) })]. *)
Definition push_temp_paths (files : gmap string CustomUploadedFile) : M PostState unit :=
  fun s =>
    (Ok tt,
     mkPostState (world s)
       (tempFilePathsToDelete s
          ++ filter (fun p => truthy p = true) (filepath <$> (map_to_list files).*2))
       (mainError s)).

(** [fsPromises.readFile(path)]. *)
Definition readFile (env : Env) (path : string) : M World unit :=
  fun w =>
    match readFile_error env with
    | Some e => (Throw e, log (CallReadFile path) w)
    | None => (Ok tt, log (CallReadFile path) w)
    end.

(** [fetch(url, { method: 'POST', body })] and [flaskResponse.text()]. *)
Definition fetch (env : Env) (url : string) : M World (bool * N * string * option Json) :=
  fun w =>
    match fetch_answer env with
    | FetchFails e => (Throw e, log (CallFetch url) w)
    | FetchResponse ok st text js => (Ok (ok, st, text, js), log (CallFetch url) w)
    end.

(** [JSON.parse(text)], with the answer recorded in the response. *)
Definition JSON_parse {S} (parsed : option Json) : M S Json :=
  match parsed with
  | Some v => ret v
  | None => throw (mkError "SyntaxError" "Unexpected token in JSON")
  end.

(** Opening the upload stream, piping the scratch file into it and waiting
    for ['finish'] or ['error'].  On ['finish'] the bucket holds the new
    file document under the stream's id; an id that is already taken is a
    duplicate-key error of the stream. *)
Definition upload (env : Env) (imageFilename fileType : string) (metadata : Metadata)
  : M World ObjectId.t :=
  fun w =>
    let w1 := log (CallOpenUploadStream imageFilename) w in
    match upload_answer env with
    | UploadOpenThrows e => (Throw e, w1)
    | UploadReadError err =>
        (Throw (new_Error ("Error reading temporary file: " +:+ message err)), w1)
    | UploadStreamError err =>
        (Throw (new_Error ("GridFS upload error: " +:+ message err)), w1)
    | UploadFinish id len =>
        match store w !! id with
        | Some _ =>
            (Throw (new_Error ("GridFS upload error: " +:+ "E11000 duplicate key error")), w1)
        | None =>
            (Ok id,
             log (StoreInsert id)
               (set_store (insert id (mkFileDoc imageFilename (Some fileType) len (Some metadata)))
                  w1))
        end
    end.

Definition quote : string := String (ascii_of_N 34) EmptyString.

(** The entry relayed for one converted page. *)
Definition page_entry {S} (convertedFile : Json) : M S ResultEntry :=
  let* originalName := liftR (get_prop convertedFile "originalName") in
  let* fileId := liftR (get_prop convertedFile "fileId") in
  let* filename := liftR (get_prop convertedFile "filename") in
  let* pageNumber := liftR (get_prop convertedFile "pageNumber") in
  ret (mkResultEntry originalName fileId filename "image/png" pageNumber).

(** [converted_files.map(convertedFile => ({ ... }))]. *)
Fixpoint page_entries {S} (converted_files : list Json) : M S (list ResultEntry) :=
  match converted_files with
  | [] => ret []
  | convertedFile :: rest =>
      let* entry := page_entry convertedFile in
      let* entries := page_entries rest in
      ret (entry :: entries)
  end.

(** The message thrown for a response of the conversion service that is
    not [ok]. *)
Definition flask_error_message (actualOriginalName : string) (st : N) (text : string)
    (parsed : option Json) : string :=
  let flaskErrorMsg :=
    "Flask server failed to process PDF '" +:+ actualOriginalName +:+ "'. Status: "
    +:+ pretty st +:+ "." in
  let on_catch :=
    if N.of_nat (String.length text) <? 200
    then flaskErrorMsg +:+ " Response: " +:+ text else flaskErrorMsg in
  match parsed with
  | None => on_catch
  | Some parsedFlaskError =>
      match get_prop parsedFlaskError "error" with
      | Throw _ => on_catch
      | Ok (Some v) => if truthy_json v then to_String v else flaskErrorMsg
      | Ok None => flaskErrorMsg
      end
  end.

Definition convert_pdf (env : Env) (flaskUrl actualOriginalName : string)
  : M PostState (list ResultEntry) :=
  try_catch
    (let* '(ok, st, flaskResponseText, parsed) :=
       liftW (fetch env (flaskUrl +:+ "/api/convert-pdf-to-images")) in
     if negb ok
     then throw (new_Error (flask_error_message actualOriginalName st flaskResponseText parsed))
     else
       let* flaskResult := JSON_parse parsed in
       let* converted_files := liftR (get_prop flaskResult "converted_files") in
       match converted_files with
       | Some (JArr items) => page_entries items
       | _ =>
           throw (new_Error ("Flask server (for PDF '" +:+ actualOriginalName
                             +:+ "') did not return expected " +:+ quote
                             +:+ "converted_files" +:+ quote +:+ " array."))
       end)
    (fun pdfProcessingError =>
       let msg := message pdfProcessingError in
       let detailedErrorMessage :=
         "Failed PDF processing for '" +:+ actualOriginalName +:+ "'." +:+
         (if truthy msg && includes (toLowerCase msg) "fetch failed"
          then " The Next.js server could not connect to the Flask server at "
               +:+ flaskUrl +:+ "/api/convert-pdf-to-images. Please ensure the Flask server is running, accessible, and the URL is correct. Original error: "
               +:+ msg
          else " Error during communication with or processing by Flask server: " +:+ msg) in
       throw_main (new_Error detailedErrorMessage)).

Definition upload_image (env : Env) (userId actualOriginalName fileType : string)
  : M PostState (list ResultEntry) :=
  let* now := liftW (Date_now env) in
  let imageFilename :=
    userId +:+ "_" +:+ pretty now +:+ "_" +:+ sanitize actualOriginalName in
  let metadata :=
    mkMetadata actualOriginalName (Some userId) (toISOString_answer env)
      fileType fileType (reqId env) in
  try_catch
    (let* id := liftW (upload env imageFilename fileType metadata) in
     ret [mkResultEntry (Some (JStr actualOriginalName))
            (Some (JStr (ObjectId.toString id)))
            (Some (JStr imageFilename)) fileType None])
    (fun imageProcessingError =>
       throw_main (new_Error ("Failed during image processing for '" +:+ actualOriginalName
                              +:+ "': " +:+ message imageProcessingError))).

(** [Array.isArray(userIdField) ? userIdField[0] : userIdField]. *)
Definition userId_of (userIdField : option FieldValue) : option string :=
  match userIdField with
  | Some (FArray l) => head l
  | Some (FString s) => Some s
  | None => None
  end.

(** The first stage of the [try] block: the database connection. *)
Definition POST_connect (env : Env) : M PostState DbConnection :=
  try_catch
    (let* dbConnection := liftW (connectToDb env) in
     match dbConnection with
     | Some c =>
         if bucket c && db c then ret c
         else throw_main (new_Error "Server error: Database or GridFS bucket not initialized.")
     | None =>
         throw_main (new_Error "Server error: Database or GridFS bucket not initialized.")
     end)
    (fun dbError => throw_main dbError).

(** The second stage: the form, and the scratch files to delete. *)
Definition POST_parse (env : Env) (request : Request) : M PostState CustomParsedForm :=
  try_catch
    (let* parsedForm := liftW (parseFormRevised env request) in
     push_temp_paths (files parsedForm);;
     ret parsedForm)
    (fun formError =>
       throw_main (new_Error ("Failed to parse form data: " +:+ message formError))).

(** The rest of the [try] block: the checks and the two processing paths. *)
Definition POST_process (env : Env) (flaskUrl : string) (parsedForm : CustomParsedForm)
  : M PostState Response :=
  let userId := userId_of (fields parsedForm !! "userId") in
  if negb (truthy_opt userId)
  then ret (json 400 (MessageKey "Missing userId in form data." "MISSING_USER_ID"))
  else
    let userId := default EmptyString userId in
    match files parsedForm !! "file" with
    | None =>
        ret (json 400 (MessageKey "No file uploaded or file path missing." "NO_FILE_UPLOADED"))
    | Some uploadedFileEntry =>
        if negb (truthy (filepath uploadedFileEntry))
        then ret (json 400
                    (MessageKey "No file uploaded or file path missing." "NO_FILE_UPLOADED"))
        else
          let actualOriginalName :=
            if truthy_opt (originalFilename uploadedFileEntry)
            then default EmptyString (originalFilename uploadedFileEntry)
            else "unknown_file" in
          let tempFilePath := filepath uploadedFileEntry in
          let fileType := mimetype uploadedFileEntry in
          if bool_decide (fileType = Some SUPPORTED_PDF_TYPE)
          then
            liftW (readFile env tempFilePath);;
            let* results := convert_pdf env flaskUrl actualOriginalName in
            ret (json 201 (Results results))
          else if truthy_opt fileType
                  && array_includes SUPPORTED_IMAGE_TYPES (default EmptyString fileType)
          then
            let* results :=
              upload_image env userId actualOriginalName (default EmptyString fileType) in
            ret (json 201 (Results results))
          else
            ret (json 415
                   (MessageKey ("Unsupported file type: "
                                +:+ default "null" fileType
                                +:+ ". Please upload a supported image or PDF file.")
                      "UNSUPPORTED_FILE_TYPE"))
    end.

Definition POST_try (env : Env) (flaskUrl : string) (request : Request)
  : M PostState Response :=
  POST_connect env;;
  let* parsedForm := POST_parse env request in
  POST_process env flaskUrl parsedForm.

(** The outer [catch]: [caughtError = mainError || error]. *)
Definition POST_catch (env : Env) (mainError : option Error) (error : Error) : Response :=
  let caughtError := default error mainError in
  json 500
    (ServerError ("Server Error: " +:+ message caughtError)
       (if truthy (name caughtError) then name caughtError else "UNKNOWN_PROCESSING_ERROR")
       (reqId env)).

(** One turn of the clean-up loop: [existsSync], then [unlinkSync], whose
    error is caught and logged. *)
Definition unlink_temp (env : Env) (disk : gset string) (filePath : string) : gset string :=
  if bool_decide (filePath ∈ disk) && negb (unlink_fails env filePath)
  then disk ∖ {[filePath]} else disk.

(** The [finally] block. *)
Definition POST_finally (env : Env) (s : PostState) : World :=
  set_fs (fun disk => foldl (unlink_temp env) disk (tempFilePathsToDelete s)) (world s).

(** The answer to any request while the service URL is not configured. *)
Definition config_error : Response :=
  json 500 (MessageKey "Server configuration error: Flask server URL not set."
              "FLASK_URL_MISSING").

Definition POST (env : Env) (request : Request) (w : World) : Response * World :=
  if negb (truthy_opt (FLASK_SERVER_URL env))
  then (config_error, w)
  else
    let flaskUrl := default EmptyString (FLASK_SERVER_URL env) in
    let '(r, s) := POST_try env flaskUrl request (mkPostState w [] None) in
    let response :=
      match r with
      | Ok response => response
      | Throw error => POST_catch env (mainError s) error
      end in
    (response, POST_finally env s).

(** ** The auth/profile state adapter

    The effect of [AuthProvider], mounted once.  The provider's auth
    listener and the profile listeners it attaches with [onSnapshot] live in
    the realtime backend; a listener is named by the number [onSnapshot]
    gave it, and its [Unsubscribe] function by the same number. *)

Module AuthContext.

Record User := mkUser { uid : string }.

(** The data of a profile document. *)
Definition UserProfile := string.

(** What the backend does with profile listeners, in order. *)
Inductive Action :=
| Attach (listener : nat)
| Detach (listener : nat).

Record State := mkState {
  user : option User;
  userProfile : option UserProfile;
  loading : bool;
  userId : option string;
  profileListenerUnsubscribe : option nat;  (* the closure variable of the effect *)
  authSubscribed : bool;                    (* the auth listener is attached *)
  active : gset nat;                        (* profile listeners the backend holds *)
  next_listener : nat;                              (* the next listener number *)
  history : list Action
}.

(** What can reach the provider once it is mounted. *)
Inductive Event :=
| AuthStateChanged (firebaseUser : option User)
| ProfileSnapshot (listener : nat) (data : option UserProfile)
| ProfileError (listener : nat)
| Unmount.

(** The state right after the effect ran: [setLoading(true)], no profile
    listener, the auth listener attached. *)
Definition mount : State :=
  mkState None None true None None true ∅ 0 [].

(** Calling the [Unsubscribe] function of a listener. *)
Definition unsubscribe (l : nat) (s : State) : State :=
  mkState (user s) (userProfile s) (loading s) (userId s)
    (profileListenerUnsubscribe s) (authSubscribed s)
    (active s ∖ {[l]}) (next_listener s) (history s ++ [Detach l]).

(** [onSnapshot(userDocRef, next, error)]: a new listener, whose
    [Unsubscribe] is stored in [profileListenerUnsubscribe]. *)
Definition onSnapshot (s : State) : State :=
  mkState (user s) (userProfile s) (loading s) (userId s)
    (Some (next_listener s)) (authSubscribed s)
    ({[next_listener s]} ∪ active s) (S (next_listener s)) (history s ++ [Attach (next_listener s)]).

Definition set_view (u : option User) (p : option UserProfile) (l : bool)
    (i : option string) (s : State) : State :=
  mkState u p l i (profileListenerUnsubscribe s) (authSubscribed s)
    (active s) (next_listener s) (history s).

Definition clear_unsubscribe (s : State) : State :=
  mkState (user s) (userProfile s) (loading s) (userId s) None
    (authSubscribed s) (active s) (next_listener s) (history s).

(** The callback given to [onAuthStateChanged]; it awaits nothing, so it
    runs in one piece. *)
Definition onAuthStateChanged (firebaseUser : option User) (s : State) : State :=
  let s1 :=
    match profileListenerUnsubscribe s with
    | Some l => clear_unsubscribe (unsubscribe l s)
    | None => s
    end in
  let s2 := set_view firebaseUser None (loading s1) (uid <$> firebaseUser) s1 in
  match firebaseUser with
  | Some _ => onSnapshot (set_view (user s2) (userProfile s2) true (userId s2) s2)
  | None => set_view (user s2) None false (userId s2) s2
  end.

(** The clean-up of the effect. *)
Definition cleanup (s : State) : State :=
  let s1 :=
    mkState (user s) (userProfile s) (loading s) (userId s)
      (profileListenerUnsubscribe s) false (active s) (next_listener s) (history s) in
  match profileListenerUnsubscribe s1 with
  | Some l => unsubscribe l s1
  | None => s1
  end.

(** Modelled from the spec: [onAuthStateChanged] of [@/lib/firebase/auth],
    imported as [firebaseOnAuthStateChanged], is not among the sources.  The
    provider "subscribes to provider auth-state changes": the callback runs
    on each change for as long as the auth listener is attached. *)
Definition firebaseOnAuthStateChanged (firebaseUser : option User) (s : State) : State :=
  if authSubscribed s then onAuthStateChanged firebaseUser s else s.

(** The backend calls back attached listeners only. *)
Definition step (s : State) (e : Event) : State :=
  match e with
  | AuthStateChanged firebaseUser => firebaseOnAuthStateChanged firebaseUser s
  | ProfileSnapshot l data =>
      if bool_decide (l ∈ active s)
      then set_view (user s) data false (userId s) s else s
  | ProfileError l =>
      if bool_decide (l ∈ active s)
      then set_view (user s) None false (userId s) s else s
  | Unmount => cleanup s
  end.

Definition run (events : list Event) : State := foldl step mount events.

(** The listeners attached after a sequence of backend actions. *)
Definition attached (actions : list Action) : gset nat :=
  foldl (fun acc a =>
           match a with
           | Attach l => {[l]} ∪ acc
           | Detach l => acc ∖ {[l]}
           end) ∅ actions.

(** What holds of the provider between two events: the backend holds
    the listeners the history says; a listener it holds is the one whose
    [Unsubscribe] the effect keeps; and at every point of the history at
    most one listener was attached. *)
Record Inv (s : State) : Prop := mkInv {
  inv_active : active s = attached (history s);
  inv_held : ∀ l, l ∈ active s → profileListenerUnsubscribe s = Some l;
  inv_one : ∀ n, (base.size (attached (take n (history s))) ≤ 1)%nat
}.

End AuthContext.

(** ** A form as the client sent it

    What the handler's checks amount to in terms of the entries of the
    multipart form, in the order they were sent. *)

(** The values of the text entries under [key]. *)
Definition text_values (key : string) (entries : list (string * FormValue)) : list string :=
  omap (fun '(k, v) =>
          match v with
          | Text s => if String.eqb k key then Some s else None
          | File _ => None
          end) entries.

(** The files sent under [key]. *)
Definition file_values (key : string) (entries : list (string * FormValue)) : list FileValue :=
  omap (fun '(k, v) =>
          match v with
          | File f => if String.eqb k key then Some f else None
          | Text _ => None
          end) entries.

(** The keys of the file entries. *)
Definition file_keys (entries : list (string * FormValue)) : list string :=
  omap (fun '(k, v) => match v with File _ => Some k | Text _ => None end) entries.

(** The file the handler processes: the last one sent under [file]. *)
Definition sent_file (entries : list (string * FormValue)) : option FileValue :=
  last (file_values "file" entries).

(** The user id the handler reads: the first non-empty [userId] field. *)
Definition sent_userId (entries : list (string * FormValue)) : option string :=
  head (filter (fun s => truthy s = true) (text_values "userId" entries)).

Definition form_entries (request : Request) : list (string * FormValue) :=
  match formData request with
  | Ok entries => entries
  | Throw _ => []
  end.

(** The effect of one more text value on the field of its key. *)
Definition field_step (st : option FieldValue) (v : string) : option FieldValue :=
  Some match st with
       | Some (FArray l) => FArray (l ++ [v])
       | Some (FString s) => if truthy s then FArray [s; v] else FString v
       | None => FString v
       end.

(** The parsed file agrees with the file that was sent. *)
Definition file_matches (f : FileValue) (u : CustomUploadedFile) : Prop :=
  originalFilename u = Some (file_name f) ∧ mimetype u = Some (file_type f)
  ∧ size u = file_size f ∧ truthy (filepath u) = true.

(** The field is still to be decided by a later value. *)
Definition unsettled (st : option FieldValue) : Prop :=
  st = None ∨ st = Some (FString EmptyString).

(** The field starts with the non-empty value [u], for good. *)
Definition settled (u : string) (st : option FieldValue) : Prop :=
  truthy u = true ∧ (st = Some (FString u) ∨ ∃ l, st = Some (FArray (u :: l))).

(** ** Stages that leave the scratch files alone *)

(** A stage is quiet when it writes no scratch file and leaves the disk
    and the list of scratch files to delete as they are. *)
Definition quiet_world (w w' : World) : Prop :=
  fs w' = fs w ∧ ∃ evs, trace w' = trace w ++ evs ∧ ∀ p, WroteFile p ∉ evs.

Definition quiet_step (s s' : PostState) : Prop :=
  tempFilePathsToDelete s' = tempFilePathsToDelete s ∧ quiet_world (world s) (world s').

Definition quiet {A} (m : M PostState A) : Prop := ∀ s, quiet_step s (m s).2.

(** ** Sample worlds and requests *)

Definition db_up : DbOutcome := DbReturns (Some (mkDbConnection true true)).
Definition db_down : DbOutcome := DbThrows (mkError "MongoNetworkError" "connect ECONNREFUSED").

Definition two_pages : Json :=
  JObj [("converted_files",
         JArr [JObj [("originalName", JStr "scan.pdf"); ("fileId", JStr "0000000000000000000000a1");
                     ("filename", JStr "alice_scan_page_1.png"); ("pageNumber", JNum "1")];
               JObj [("originalName", JStr "scan.pdf"); ("fileId", JStr "0000000000000000000000a2");
                     ("filename", JStr "alice_scan_page_2.png"); ("pageNumber", JNum "2")]])].

(** An environment whose conversion service answers with two pages and
    whose upload stream finishes with the id 255. *)
Definition sample_env (url : option string) (dbc : DbOutcome)
    (writeError : nat → option Error) (unlinkFails : string → bool) : Env :=
  mkEnv url "k3j9x2a" "/tmp" dbc (fun n => 1700000000000 + N.of_nat n)
    "2024-05-01T10:00:00.000Z" writeError None
    (FetchResponse true 200 "{...}" (Some two_pages))
    (UploadFinish 255 10) unlinkFails None None None.

Definition no_error_env (url : option string) (dbc : DbOutcome) : Env :=
  sample_env url dbc (fun _ => None) (fun _ => false).

Definition configured_env : Env := no_error_env (Some "http://flask:5000") db_up.

(** No scratch file can be unlinked. *)
Definition stuck_disk_env : Env :=
  sample_env (Some "http://flask:5000") db_up (fun _ => None) (fun _ => true).

(** The second scratch file cannot be written. *)
Definition second_write_fails_env : Env :=
  sample_env (Some "http://flask:5000") db_up
    (fun n => if (n =? 3)%nat then Some (mkError "Error" "ENOSPC: no space left on device")
              else None)
    (fun _ => false).

Definition empty_world : World := mkWorld ∅ ∅ 0 [].

Definition alice_doc : FileDoc :=
  mkFileDoc "alice_1700000000000_cat.png" (Some "image/png") 10
    (Some (mkMetadata "cat.png" (Some "alice") "2024-05-01T10:00:00.000Z"
             "image/png" "image/png" "k3j9x2a")).

Definition alice_world : World := mkWorld ∅ {[ 255 := alice_doc ]} 0 [].

Definition cat_png : FormValue := File (mkFileValue "my cat.png" "image/png" 10).
Definition notes_txt : FormValue := File (mkFileValue "notes.txt" "text/plain" 10).
Definition scan_pdf : FormValue := File (mkFileValue "scan.pdf" "application/pdf" 10).

Definition image_request : Request :=
  mkRequest (Ok [("userId", Text "alice"); ("file", cat_png)]).

Definition text_request : Request :=
  mkRequest (Ok [("userId", Text "alice"); ("file", notes_txt)]).

Definition pdf_request : Request :=
  mkRequest (Ok [("userId", Text "alice"); ("file", scan_pdf)]).

(** ** What the upload handler answers and stores *)

(** The error the connection stage throws, if it does: the error of
    [connectToDb], or the handler's own for a connection without its
    [bucket] or its [db]. *)
Definition connect_failure (env : Env) : option Error :=
  match connectToDb_answer env with
  | DbThrows e => Some e
  | DbReturns (Some c) =>
      if bucket c && db c then None
      else Some (new_Error "Server error: Database or GridFS bucket not initialized.")
  | DbReturns None =>
      Some (new_Error "Server error: Database or GridFS bucket not initialized.")
  end.

(** The body of the outer [catch] for the error [e]. *)
Definition server_error (env : Env) (e : Error) : Response :=
  json 500
    (ServerError ("Server Error: " +:+ message e)
       (if truthy (name e) then name e else "UNKNOWN_PROCESSING_ERROR") (reqId env)).

(** [originalFilename || 'unknown_file'] for a file as it was sent. *)
Definition actual_name (f : FileValue) : string :=
  if truthy (file_name f) then file_name f else "unknown_file".

(** The name under which an image is stored. *)
Definition image_filename (userId : string) (now : N) (f : FileValue) : string :=
  userId +:+ "_" +:+ pretty now +:+ "_" +:+ sanitize (actual_name f).

(** The file document of an image uploaded by [userId] at [now]. *)
Definition image_doc (env : Env) (userId : string) (now : N) (f : FileValue) (len : N)
  : FileDoc :=
  mkFileDoc (image_filename userId now f) (Some (file_type f)) len
    (Some (mkMetadata (actual_name f) (Some userId) (toISOString_answer env)
             (file_type f) (file_type f) (reqId env))).

(** The entry answered for it. *)
Definition image_entry (id : ObjectId.t) (userId : string) (now : N) (f : FileValue)
  : ResultEntry :=
  mkResultEntry (Some (JStr (actual_name f))) (Some (JStr (ObjectId.toString id)))
    (Some (JStr (image_filename userId now f))) (file_type f) None.

(** [uploadedFileEntry.originalFilename || 'unknown_file']. *)
Definition name_of (uploadedFileEntry : CustomUploadedFile) : string :=
  if truthy_opt (originalFilename uploadedFileEntry)
  then default EmptyString (originalFilename uploadedFileEntry)
  else "unknown_file".

(** [item.k] for an item that is not [null]. *)
Definition prop_of (item : Json) (k : string) : option Json :=
  match get_prop item k with
  | Ok v => v
  | Throw _ => None
  end.

(** The entry answered for one page of a converted PDF. *)
Definition relay_page (item : Json) : ResultEntry :=
  mkResultEntry (prop_of item "originalName") (prop_of item "fileId")
    (prop_of item "filename") "image/png" (prop_of item "pageNumber").

(** A file-not-found error of the driver. *)
Definition file_gone : Error :=
  mkError "MongoGridFSFileNotFoundError" "FileNotFound: file 0000000000000000000000ff was not found".

(** An environment whose lookup of a file rejects with [file_gone]. *)
Definition lookup_fails_env : Env :=
  mkEnv None "k3j9x2a" "/tmp" db_up (fun _ => 0) "" (fun _ => None) None
    (FetchFails file_gone) (UploadOpenThrows file_gone) (fun _ => false)
    (Some file_gone) None None.

(** ** What the auth/profile adapter shows *)

(** What holds of the provider's view between two events: the user id is
    the uid of the user; without a user there is no profile and no
    listener; a listener the backend holds has a number already given out;
    and once the auth listener is detached no profile listener is left. *)
Record ViewInv (s : AuthContext.State) : Prop := mkViewInv {
  view_userId : AuthContext.userId s = AuthContext.uid <$> AuthContext.user s;
  view_profile : AuthContext.user s = None → AuthContext.userProfile s = None;
  view_listener : AuthContext.user s = None → AuthContext.active s = ∅;
  view_fresh : ∀ l, l ∈ AuthContext.active s → (l < AuthContext.next_listener s)%nat;
  view_detached : AuthContext.authSubscribed s = false → AuthContext.active s = ∅
}.

(** The provider shows the same thing in [s'] as in [s], and holds no
    listener any more. *)
Definition released (s s' : AuthContext.State) : Prop :=
  AuthContext.user s' = AuthContext.user s
  ∧ AuthContext.userProfile s' = AuthContext.userProfile s
  ∧ AuthContext.loading s' = AuthContext.loading s
  ∧ AuthContext.userId s' = AuthContext.userId s
  ∧ AuthContext.authSubscribed s' = false
  ∧ AuthContext.active s' = ∅.

(** ** The scratch files of a form *)

(** The files of a form, in the order they were sent. *)
Definition sent_files (entries : list (string * FormValue)) : list FileValue :=
  omap (fun '(_, v) => match v with File f => Some f | Text _ => None end) entries.

(** The path of the scratch file written at time [now] for the file [f]. *)
Definition temp_path (env : Env) (now : N) (f : FileValue) : string :=
  path_join (tmpdir env)
    ("nextjs_temp_" +:+ reqId env +:+ "_" +:+ pretty now +:+ "_" +:+ sanitize (file_name f)).

(** All characters of a string are of the class [[a-zA-Z0-9_.-]]. *)
Fixpoint all_safe (s : string) : bool :=
  match s with
  | EmptyString => true
  | String c s' => is_safe_char c && all_safe s'
  end.

(** * Properties *)

(** ** Store identifiers *)

Section ObjectIdFacts.
Import ObjectId.

Lemma hex_value_digit (d : N) : d < 16 → hex_value (hex_digit d) = Some d.
Proof.
  intros Hd. destruct d as [|p]; [reflexivity|].
  do 4 (destruct p as [p|p|]; try reflexivity); lia.
Qed.

Lemma is_hex_digit (d : N) : d < 16 → is_hex (hex_digit d) = true.
Proof. intros Hd. unfold is_hex. by rewrite hex_value_digit. Qed.

Lemma to_hex_length (k : nat) (n : N) (acc : string) :
  String.length (to_hex k n acc) = (k + String.length acc)%nat.
Proof.
  revert n acc. induction k as [|k IH]; intros n acc; simpl; [done|].
  rewrite IH. simpl. lia.
Qed.

Lemma to_hex_all_hex (k : nat) (n : N) (acc : string) :
  all_hex acc = true → all_hex (to_hex k n acc) = true.
Proof.
  revert n acc. induction k as [|k IH]; intros n acc Hacc; simpl; [done|].
  apply IH. simpl. rewrite Hacc, is_hex_digit; [done|].
  apply N.mod_upper_bound. lia.
Qed.

(** What the driver prints is an identifier the driver accepts. *)
Lemma toString_isValid (id : ObjectId.t) : isValid (toString id) = true.
Proof.
  unfold isValid, toString.
  rewrite to_hex_length, to_hex_all_hex by done. reflexivity.
Qed.

Lemma parse_hex_to_hex (k : nat) (n a : N) (acc : string) :
  parse_hex a (to_hex k n acc) = parse_hex (a * 16 ^ N.of_nat k + n mod 16 ^ N.of_nat k) acc.
Proof.
  revert n a acc. induction k as [|k IH]; intros n a acc.
  - simpl. rewrite N.mod_1_r. f_equal. lia.
  - cbn [to_hex]. rewrite IH. cbn [parse_hex].
    rewrite hex_value_digit by (apply N.mod_upper_bound; lia).
    f_equal. rewrite Nat2N.inj_succ, N.pow_succ_r'.
    rewrite (N.Div0.mod_mul_r n 16 (16 ^ N.of_nat k)). lia.
Qed.

(** Reading back what the driver printed gives the identifier. *)
Lemma of_string_toString (id : ObjectId.t) :
  id < 2 ^ 96 → of_string (toString id) = Some id.
Proof.
  intros Hid. unfold of_string. rewrite toString_isValid.
  unfold toString. rewrite parse_hex_to_hex. cbn [parse_hex]. f_equal.
  change (16 ^ N.of_nat 24) with (2 ^ 96). rewrite N.mod_small by done. lia.
Qed.

Lemma of_string_valid (s : string) (id : ObjectId.t) :
  of_string s = Some id → isValid s = true ∧ truthy s = true.
Proof.
  unfold of_string. destruct (isValid s) eqn:Hv; [|done]. intros _. split; [done|].
  destruct s; [discriminate Hv | reflexivity].
Qed.

End ObjectIdFacts.

(** ** The by-id route *)

Lemma bad_fileId_true (fileId : option string) :
  bad_fileId fileId = true ↔
  fileId = None ∨ ∃ s, fileId = Some s ∧ ObjectId.isValid s = false.
Proof.
  destruct fileId as [s|]; simpl; [|naive_solver].
  split.
  - intros H. right. exists s. split; [done|].
    destruct s; [reflexivity|]. simpl in H. by apply negb_true_iff in H.
  - intros [|(s' & [= <-] & Hs)]; [done|]. rewrite Hs. simpl. apply orb_true_r.
Qed.

Lemma bad_fileId_of_string (s : string) (id : ObjectId.t) :
  ObjectId.of_string s = Some id → bad_fileId (Some s) = false.
Proof.
  intros [Hv Ht]%of_string_valid. simpl. by rewrite Hv, Ht.
Qed.

(** C6, as amended.  A GET whose [fileId] is missing or is not a
    well-formed identifier is answered 400, before the database is asked.
    A GET whose [fileId] is well-formed and names no stored object is
    answered 404 when the database connection is obtained with its bucket
    and the lookup does not fail. *)
Theorem GET_malformed_400_absent_404 (env : Env) (fileId : option string) (w : World) :
  (fileId = None ∨ (∃ s, fileId = Some s ∧ ObjectId.isValid s = false) →
   status (GET env fileId w).1 = 400 ∧ (GET env fileId w).2 = w)
  ∧
  (∀ s id c,
     fileId = Some s → ObjectId.of_string s = Some id → store w !! id = None →
     connectToDb_answer env = DbReturns (Some c) → bucket c = true →
     find_error env = None →
     status (GET env fileId w).1 = 404).
Proof.
  split.
  - intros H%bad_fileId_true. unfold GET. by rewrite H.
  - intros s id c -> Hid Hnone Hdb Hbucket Hfind.
    unfold GET. rewrite (bad_fileId_of_string _ _ Hid).
    unfold GET_try, bind, connectToDb, new_ObjectId, bucket_find, ret. simpl.
    rewrite Hdb, Hid, Hbucket, Hfind. simpl. by rewrite Hnone.
Qed.

Lemma GET_malformed_400_absent_404_witness :
  status (GET (no_error_env None db_up) (Some "not-an-id") empty_world).1 = 400
  ∧ status (GET (no_error_env None db_up) (Some "0000000000000000000000ff") empty_world).1 = 404.
Proof.
  split.
  - apply (proj1 (GET_malformed_400_absent_404 _ _ _)).
    right. exists "not-an-id". split; reflexivity.
  - apply (proj2 (GET_malformed_400_absent_404 _ _ _)
             "0000000000000000000000ff" 255 (mkDbConnection true true));
      reflexivity.
Defined.

(** C6 as stated fails: with a well-formed identifier that names no stored
    object, a failed database connection is answered 500. *)
Lemma GET_absent_id_db_down_500 :
  ObjectId.of_string "0000000000000000000000ff" = Some 255
  ∧ store empty_world !! 255 = None
  ∧ status (GET (no_error_env None db_down) (Some "0000000000000000000000ff") empty_world).1
    = 500.
Proof. repeat split; vm_compute; reflexivity. Qed.

(** C10.  The DELETE handler tests the [userId] query parameter first: a
    request without it is answered 401 whatever its [fileId], before the
    database is asked; and 400 is only ever answered to a request that
    supplied a non-empty [userId]. *)
Theorem DELETE_userId_checked_first (env : Env) (request : DeleteRequest) (w : World) :
  (del_userId request = None →
   status (DELETE env request w).1 = 401 ∧ (DELETE env request w).2 = w)
  ∧
  (status (DELETE env request w).1 = 400 →
   ∃ u, del_userId request = Some u ∧ u ≠ EmptyString).
Proof.
  split.
  - intros H. unfold DELETE. by rewrite H.
  - unfold DELETE. destruct (del_userId request) as [u|]; simpl; [|done].
    destruct u; simpl; [done|]. intros _. eexists. split; [done|]. discriminate.
Qed.

Lemma DELETE_userId_checked_first_witness :
  status (DELETE (no_error_env None db_up)
            (mkDeleteRequest (Some "not-an-id") None) alice_world).1 = 401
  ∧ ∃ u, del_userId (mkDeleteRequest (Some "not-an-id") (Some "bob")) = Some u
         ∧ u ≠ EmptyString.
Proof.
  split.
  - apply (proj1 (DELETE_userId_checked_first _ _ _)). reflexivity.
  - apply (proj2 (DELETE_userId_checked_first (no_error_env None db_up) _ alice_world)).
    reflexivity.
Defined.

Lemma DELETE_try_mismatch_store (env : Env) (fileId userId : string) (id : ObjectId.t)
    (doc : FileDoc) (w : World) :
  ObjectId.of_string fileId = Some id → store w !! id = Some doc →
  owner_differs doc userId = true →
  store (DELETE_try env fileId userId w).2 = store w.
Proof.
  intros Hid Hdoc Hdiff.
  unfold DELETE_try, bind, connectToDb, new_ObjectId, findOne, ret, throw.
  rewrite Hid.
  destruct (connectToDb_answer env) as [e|[[d b]|]]; simpl; try done.
  destruct d; simpl; [|done].
  destruct (findOne_error env); simpl; [done|].
  by rewrite Hdoc, Hdiff.
Qed.

Lemma owner_differs_true (doc : FileDoc) (userId : string) :
  doc_metadata doc ≫= md_userId ≠ Some userId → owner_differs doc userId = true.
Proof.
  unfold owner_differs. destruct (doc_metadata doc ≫= md_userId) as [o|]; [|done].
  intros H. apply negb_true_iff, String.eqb_neq. congruence.
Qed.

(** C2, as amended.  A DELETE whose [fileId] names a stored object whose
    recorded owner differs from the request's [userId] leaves the stored
    objects as they are, whatever the answer; the answer is 403 when the
    [userId] is not empty, the database connection is obtained with its
    [db] and the lookup of the metadata does not fail. *)
Theorem DELETE_owner_mismatch (env : Env) (request : DeleteRequest) (w : World)
    (fileId userId : string) (id : ObjectId.t) (doc : FileDoc) :
  del_fileId request = Some fileId → del_userId request = Some userId →
  ObjectId.of_string fileId = Some id → store w !! id = Some doc →
  doc_metadata doc ≫= md_userId ≠ Some userId →
  store (DELETE env request w).2 = store w
  ∧ (∀ c, userId ≠ EmptyString →
          connectToDb_answer env = DbReturns (Some c) → db c = true →
          findOne_error env = None →
          status (DELETE env request w).1 = 403).
Proof.
  intros Hf Hu Hid Hdoc Hdiff%owner_differs_true. split.
  - unfold DELETE. rewrite Hf, Hu, (bad_fileId_of_string _ _ Hid). cbn [truthy_opt default from_option Datatypes.id].
    destruct (truthy userId); cbn [negb]; [|done].
    pose proof (DELETE_try_mismatch_store env fileId userId id doc w Hid Hdoc Hdiff) as Hs.
    by destruct (DELETE_try env fileId userId w) as [[?|?] ?].
  - intros c Hne Hdb Hc Hfind.
    unfold DELETE. rewrite Hf, Hu, (bad_fileId_of_string _ _ Hid). cbn [truthy_opt default from_option Datatypes.id].
    assert (truthy userId = true) as -> by (by destruct userId).
    cbn [negb].
    unfold DELETE_try, bind, connectToDb, new_ObjectId, findOne, ret, throw.
    rewrite Hdb, Hid. simpl. rewrite Hc, Hfind. simpl. by rewrite Hdoc, Hdiff.
Qed.

Lemma DELETE_owner_mismatch_witness :
  store (DELETE (no_error_env None db_up)
           (mkDeleteRequest (Some "0000000000000000000000ff") (Some "bob")) alice_world).2
  = store alice_world
  ∧ status (DELETE (no_error_env None db_up)
              (mkDeleteRequest (Some "0000000000000000000000ff") (Some "bob")) alice_world).1
    = 403.
Proof.
  destruct (DELETE_owner_mismatch (no_error_env None db_up)
              (mkDeleteRequest (Some "0000000000000000000000ff") (Some "bob")) alice_world
              "0000000000000000000000ff" "bob" 255 alice_doc) as [Hs H403];
    try reflexivity.
  - discriminate.
  - split; [exact Hs|].
    apply (H403 (mkDbConnection true true)); [discriminate | reflexivity..].
Defined.

(** C2 as stated fails: an empty [userId] differs from the recorded owner
    and is answered 401, as a missing one is. *)
Lemma DELETE_empty_userId_401 :
  ObjectId.of_string "0000000000000000000000ff" = Some 255
  ∧ store alice_world !! 255 = Some alice_doc
  ∧ doc_metadata alice_doc ≫= md_userId = Some "alice"
  ∧ status (DELETE (no_error_env None db_up)
              (mkDeleteRequest (Some "0000000000000000000000ff") (Some EmptyString))
              alice_world).1 = 401.
Proof. repeat split; vm_compute; reflexivity. Qed.

(** ** The upload route: what parsing the form does *)

Lemma add_field_lookup (k v key : string) (m : gmap string FieldValue) :
  add_field k v m !! key = if String.eqb k key then field_step (m !! key) v else m !! key.
Proof.
  unfold add_field, field_step.
  destruct (String.eqb_spec k key) as [->|Hne].
  - destruct (m !! key) as [[s|l]|]; [destruct (truthy s)|..]; by rewrite lookup_insert_eq.
  - destruct (m !! k) as [[s|l]|]; [destruct (truthy s)|..]; by rewrite lookup_insert_ne.
Qed.

Lemma set_file_lookup (k key : string) (u : CustomUploadedFile)
    (m : gmap string CustomUploadedFile) :
  set_file k u m !! key =
  if String.eqb k key && negb (String.eqb k "__proto__") then Some u else m !! key.
Proof.
  unfold set_file. destruct (String.eqb k "__proto__"); simpl.
  - by rewrite andb_false_r.
  - rewrite andb_true_r. destruct (String.eqb_spec k key) as [->|Hne].
    + by rewrite lookup_insert_eq.
    + by rewrite lookup_insert_ne.
Qed.

Lemma truthy_path_join (dir name : string) : truthy (path_join dir name) = true.
Proof. unfold path_join. by destruct dir. Qed.

Lemma text_values_cons (key k : string) (v : FormValue) rest :
  text_values key ((k, v) :: rest) =
  match v with
  | Text s => if String.eqb k key then s :: text_values key rest else text_values key rest
  | File _ => text_values key rest
  end.
Proof. unfold text_values. simpl. destruct v; [destruct (String.eqb k key)|]; reflexivity. Qed.

Lemma file_values_cons (key k : string) (v : FormValue) rest :
  file_values key ((k, v) :: rest) =
  match v with
  | File f => if String.eqb k key then f :: file_values key rest else file_values key rest
  | Text _ => file_values key rest
  end.
Proof. unfold file_values. simpl. destruct v; [|destruct (String.eqb k key)]; reflexivity. Qed.

Lemma file_keys_cons (k : string) (v : FormValue) rest :
  file_keys ((k, v) :: rest) =
  match v with
  | File _ => k :: file_keys rest
  | Text _ => file_keys rest
  end.
Proof. unfold file_keys. simpl. by destruct v. Qed.

Lemma file_values_not_sent (key : string) entries :
  key ∉ file_keys entries → file_values key entries = [].
Proof.
  induction entries as [|[k [s|f]] rest IH]; [done|..];
    rewrite file_keys_cons, file_values_cons; [done|].
  intros [Hne Hrest]%not_elem_of_cons.
  assert (String.eqb k key = false) as -> by (apply String.eqb_neq; congruence).
  by apply IH.
Qed.

Section Parsing.
Variable env : Env.

(** One turn of the loop: a text entry extends the fields; a file entry
    asks the clock, then writes a scratch file and records it, or
    throws. *)
Lemma parse_entry_text key s acc w :
  parse_entry env key (Text s) acc w
  = (Ok (mkCustomParsedForm (add_field key s (fields acc)) (files acc)), w).
Proof. reflexivity. Qed.

Lemma parse_entry_file key f acc w :
  ∃ p, truthy p = true ∧
    match writeFile_error env (S (tick w)) with
    | None =>
        parse_entry env key (File f) acc w
        = (Ok (mkCustomParsedForm (fields acc)
                 (set_file key
                    (mkCustomUploadedFile p (Some (file_name f)) (Some (file_type f))
                       (file_size f)) (files acc))),
           log (WroteFile p) (set_fs (union {[p]}) (next_tick (next_tick w))))
    | Some _ =>
        ∃ e, parse_entry env key (File f) acc w = (Throw e, next_tick (next_tick w))
    end.
Proof.
  eexists. split; [apply truthy_path_join|].
  unfold parse_entry, bind, try_catch, Date_now, writeFile, ret, throw. simpl.
  destruct (writeFile_error env (S (tick w))); [eexists|]; reflexivity.
Qed.

(** The field of a key after the loop: its text values, in order. *)
Lemma parse_entries_fields entries acc w pf w' key :
  parse_entries env entries acc w = (Ok pf, w') →
  fields pf !! key = foldl field_step (fields acc !! key) (text_values key entries).
Proof.
  revert acc w. induction entries as [|[k [s|f]] rest IH]; intros acc w.
  - by intros [= <- <-].
  - cbn [parse_entries]. unfold bind. rewrite parse_entry_text. intros H.
    rewrite (IH _ _ H), text_values_cons. cbn [fields]. rewrite add_field_lookup.
    by destruct (String.eqb k key).
  - cbn [parse_entries]. unfold bind.
    destruct (parse_entry_file k f acc w) as (p & _ & Hstep).
    destruct (writeFile_error env (S (tick w))) as [werr|].
    + by destruct Hstep as [e ->].
    + rewrite Hstep. intros H. by rewrite (IH _ _ H), text_values_cons.
Qed.

(** The file of a key after the loop: the last one sent under the key. *)
Lemma parse_entries_files entries acc w pf w' key :
  parse_entries env entries acc w = (Ok pf, w') →
  match last (file_values key entries) with
  | Some f => key ≠ "__proto__" → ∃ u, files pf !! key = Some u ∧ file_matches f u
  | None => files pf !! key = files acc !! key
  end.
Proof.
  revert acc w. induction entries as [|[k [s|f]] rest IH]; intros acc w.
  - by intros [= <- <-].
  - cbn [parse_entries]. unfold bind. rewrite parse_entry_text. intros H.
    apply (IH _ _ H).
  - cbn [parse_entries]. unfold bind.
    destruct (parse_entry_file k f acc w) as (p & Hp & Hstep).
    destruct (writeFile_error env (S (tick w))) as [werr|].
    { by destruct Hstep as [e ->]. }
    rewrite Hstep. intros H. specialize (IH _ _ H). cbn [files] in IH.
    rewrite file_values_cons.
    destruct (String.eqb_spec k key) as [->|Hne].
    + rewrite last_cons.
      destruct (last _) as [f'|]; [done|].
      intros Hkey. rewrite IH, set_file_lookup, String.eqb_refl.
      apply String.eqb_neq in Hkey. rewrite Hkey. simpl.
      eexists. split; [done|]. by repeat split.
    + destruct (last _) as [f'|]; [done|].
      rewrite IH, set_file_lookup.
      apply String.eqb_neq in Hne. by rewrite Hne.
Qed.

(** The loop changes nothing in the store; it adds to the trace one
    [WroteFile] per scratch file and these files to the disk.  When it
    runs to its end over file entries of distinct keys, none of them
    [__proto__], every scratch file it wrote is the file of some key. *)
Lemma parse_entries_world entries acc w r w' :
  parse_entries env entries acc w = (r, w') →
  store w' = store w
  ∧ ∃ paths, trace w' = trace w ++ (WroteFile <$> paths)
             ∧ fs w' = list_to_set paths ∪ fs w
             ∧ ∀ pf, r = Ok pf →
                 NoDup (file_keys entries) → "__proto__" ∉ file_keys entries →
                 ∀ p, p ∈ paths →
                      truthy p = true ∧ ∃ k u, files pf !! k = Some u ∧ filepath u = p.
Proof.
  revert acc w. induction entries as [|[key [s|f]] rest IH]; intros acc w.
  - intros [= <- <-]. split; [done|]. exists []. simpl.
    split; [by rewrite app_nil_r|]. split; [by rewrite (left_id_L ∅ (∪))|].
    by intros ? _ _ _ ? ?%elem_of_nil.
  - cbn [parse_entries]. unfold bind. rewrite parse_entry_text. apply IH.
  - cbn [parse_entries]. unfold bind.
    destruct (parse_entry_file key f acc w) as (p & Hp & Hstep).
    destruct (writeFile_error env (S (tick w))) as [werr|] eqn:Hw.
    + destruct Hstep as [e ->]. intros [= <- <-]. split; [done|]. exists []. simpl.
      split; [by rewrite app_nil_r|]. split; [by rewrite (left_id_L ∅ (∪))|].
      by intros ? [=].
    + rewrite Hstep. intros Hrun.
      destruct (IH _ _ Hrun) as (Hst & paths & Htr & Hfs & Hreg).
      split; [by rewrite Hst|]. exists (p :: paths).
      rewrite file_keys_cons, Htr, Hfs. simpl. split; [by rewrite <- app_assoc|].
      split; [set_solver|].
      intros pf -> [Hkey Hnd]%NoDup_cons [Hproto Hrest]%not_elem_of_cons q Hq.
      apply elem_of_cons in Hq as [->|Hq]; [|by apply (Hreg pf)].
      pose proof (parse_entries_files _ _ _ _ _ key Hrun) as Hfile.
      rewrite (file_values_not_sent _ _ Hkey) in Hfile. simpl in Hfile.
      split; [done|].
      exists key, (mkCustomUploadedFile p (Some (file_name f)) (Some (file_type f))
                     (file_size f)).
      split; [|reflexivity].
      rewrite Hfile. cbn [files]. rewrite set_file_lookup, String.eqb_refl.
      assert (String.eqb key "__proto__" = false) as ->
        by (apply String.eqb_neq; congruence).
      reflexivity.
Qed.

(** Without a write error the loop runs to its end. *)
Lemma parse_entries_total entries acc w :
  (∀ n, writeFile_error env n = None) →
  ∃ pf, (parse_entries env entries acc w).1 = Ok pf.
Proof.
  intros Hno. revert acc w. induction entries as [|[k [s|f]] rest IH]; intros acc w.
  - by eexists.
  - cbn [parse_entries]. unfold bind. rewrite parse_entry_text. apply IH.
  - cbn [parse_entries]. unfold bind.
    destruct (parse_entry_file k f acc w) as (p & Hp & Hstep).
    rewrite Hno in Hstep. rewrite Hstep. apply IH.
Qed.

End Parsing.

(** ** The upload route: the user id read from the fields *)

Lemma settled_step u st v : settled u st → settled u (field_step st v).
Proof.
  intros [Hu [->|[l ->]]]; (split; [done|]); unfold field_step.
  - rewrite Hu. right. by eexists.
  - right. by eexists.
Qed.

Lemma settled_foldl u st vs : settled u st → settled u (foldl field_step st vs).
Proof.
  revert st. induction vs as [|v vs IH]; intros st Hst; [done|].
  simpl. by apply IH, settled_step.
Qed.

Lemma settled_userId u st : settled u st → userId_of st = Some u.
Proof. by intros [_ [->|[l ->]]]. Qed.

Lemma truthy_false (s : string) : truthy s = false → s = EmptyString.
Proof. by destruct s. Qed.

Lemma unsettled_foldl st vs :
  unsettled st →
  match head (filter (fun s => truthy s = true) vs) with
  | Some u => userId_of (foldl field_step st vs) = Some u ∧ truthy u = true
  | None => truthy_opt (userId_of (foldl field_step st vs)) = false
  end.
Proof.
  revert st. induction vs as [|v vs IH]; intros st Hst.
  - by destruct Hst as [->| ->].
  - destruct (truthy v) eqn:Hv.
    + rewrite filter_cons_True by done. simpl. split; [|done].
      apply settled_userId, settled_foldl. split; [done|].
      left. by destruct Hst as [->| ->].
    + rewrite filter_cons_False by (by rewrite Hv). simpl.
      apply IH. right. apply truthy_false in Hv as ->. by destruct Hst as [->| ->].
Qed.

(** ** The upload route: the clean-up of scratch files *)

Lemma unlink_temp_subseteq env disk p : unlink_temp env disk p ⊆ disk.
Proof. unfold unlink_temp. case_match; set_solver. Qed.

Lemma foldl_unlink_subseteq env l disk : foldl (unlink_temp env) disk l ⊆ disk.
Proof.
  revert disk. induction l as [|q l IH]; intros disk; simpl; [done|].
  etrans; [apply IH | apply unlink_temp_subseteq].
Qed.

(** A listed path that is still on disk after the loop is one whose
    [unlinkSync] threw. *)
Lemma foldl_unlink_left env l disk p :
  p ∈ l → p ∈ foldl (unlink_temp env) disk l → unlink_fails env p = true.
Proof.
  revert disk. induction l as [|q l IH]; intros disk Hin Hleft; [by apply elem_of_nil in Hin|].
  simpl in Hleft. apply elem_of_cons in Hin as [<-|Hin]; [|by eapply IH].
  apply foldl_unlink_subseteq in Hleft. unfold unlink_temp in Hleft.
  destruct (unlink_fails env p); [done|].
  rewrite andb_true_r in Hleft. case_bool_decide; set_solver.
Qed.

(** The paths pushed for the files of a parsed form. *)
Lemma pushed_temp_path (files : gmap string CustomUploadedFile) k u :
  files !! k = Some u → truthy (filepath u) = true →
  filepath u ∈ filter (fun p => truthy p = true) (filepath <$> (map_to_list files).*2).
Proof.
  intros Hk Hu. apply list_elem_of_filter. split; [done|].
  apply list_elem_of_fmap. exists u. split; [done|].
  apply list_elem_of_fmap. exists (k, u). split; [done|].
  by apply elem_of_map_to_list.
Qed.

(** ** The upload route: what each stage does to the world *)

Lemma POST_connect_spec env s :
  ∃ r me,
    POST_connect env s
    = (r, mkPostState (log CallConnectToDb (world s)) (tempFilePathsToDelete s) me)
    ∧ if db_ready env then ∃ c, r = Ok c else ∃ e, r = Throw e.
Proof.
  unfold POST_connect, try_catch, bind, liftW, connectToDb, throw_main, ret, db_ready.
  destruct (connectToDb_answer env) as [e|[c|]]; simpl; [by eauto| |by eauto].
  destruct (bucket c && db c); simpl; by eauto.
Qed.

Lemma POST_parse_spec env request s r s' :
  POST_parse env request s = (r, s') →
  store (world s') = store (world s)
  ∧ ∃ paths,
      trace (world s') = trace (world s) ++ CallFormData :: (WroteFile <$> paths)
      ∧ fs (world s') = list_to_set paths ∪ fs (world s)
      ∧ match r with
        | Ok pf =>
            ∃ entries,
              formData request = Ok entries
              ∧ (∀ key, fields pf !! key = foldl field_step None (text_values key entries))
              ∧ (∀ key, match last (file_values key entries) with
                        | Some f =>
                            key ≠ "__proto__" →
                            ∃ u, files pf !! key = Some u ∧ file_matches f u
                        | None => files pf !! key = None
                        end)
              ∧ (NoDup (file_keys entries) → "__proto__" ∉ file_keys entries →
                 ∀ p, p ∈ paths → p ∈ tempFilePathsToDelete s')
        | Throw _ =>
            tempFilePathsToDelete s' = tempFilePathsToDelete s
            ∧ ((∀ n, writeFile_error env n = None) →
               paths = [] ∧ ∃ e, formData request = Throw e)
        end.
Proof.
  unfold POST_parse, parseFormRevised, try_catch, bind, liftW, emit, push_temp_paths,
    throw_main, throw, ret.
  destruct (formData request) as [entries|e] eqn:Hform.
  - destruct (parse_entries env entries (mkCustomParsedForm ∅ ∅) (log CallFormData (world s)))
      as [[pf|e] w1] eqn:Hrun; simpl; intros [= <- <-]; simpl;
      destruct (parse_entries_world _ _ _ _ _ _ Hrun) as (Hst & paths & Htr & Hfs & Hreg);
      (split; [done|]); exists paths; simpl in Htr;
      (split; [by rewrite Htr, <- app_assoc|]); (split; [done|]).
    + exists entries. split; [done|].
      split; [intros key; by rewrite (parse_entries_fields _ _ _ _ _ _ key Hrun)|].
      split.
      * intros key. pose proof (parse_entries_files _ _ _ _ _ _ key Hrun) as Hfile.
        by destruct (last _).
      * intros Hnd Hproto p Hp.
        destruct (Hreg pf eq_refl Hnd Hproto p Hp) as (Ht & k & u & Hk & <-).
        apply elem_of_app. right. by eapply pushed_temp_path.
    + split; [done|]. intros Hno.
      destruct (parse_entries_total env entries (mkCustomParsedForm ∅ ∅)
                  (log CallFormData (world s)) Hno) as [pf Hpf].
      rewrite Hrun in Hpf. discriminate Hpf.
  - simpl. intros [= <- <-]. simpl. split; [done|]. exists []. simpl.
    split; [done|]. split; [by rewrite (left_id_L ∅ (∪))|]. by eauto.
Qed.

Lemma quiet_world_refl w : quiet_world w w.
Proof. split; [done|]. exists []. split; [by rewrite app_nil_r|]. intros p. apply not_elem_of_nil. Qed.

Lemma quiet_world_log e w w' :
  (∀ p, e ≠ WroteFile p) → quiet_world w w' → quiet_world w (log e w').
Proof.
  intros He (Hfs & evs & Htr & Hevs). split; [done|]. exists (evs ++ [e]). simpl.
  split; [by rewrite Htr, app_assoc|].
  intros p [?|Hin%list_elem_of_singleton]%elem_of_app; [by eapply Hevs|by eapply He].
Qed.

Lemma quiet_world_trans w1 w2 w3 : quiet_world w1 w2 → quiet_world w2 w3 → quiet_world w1 w3.
Proof.
  intros (Hfs & evs & Htr & Hevs) (Hfs' & evs' & Htr' & Hevs').
  split; [congruence|]. exists (evs ++ evs').
  split; [by rewrite Htr', Htr, app_assoc|].
  intros p [?|?]%elem_of_app; [by eapply Hevs|by eapply Hevs'].
Qed.

Lemma quiet_step_refl s : quiet_step s s.
Proof. split; [done|apply quiet_world_refl]. Qed.

Lemma quiet_step_trans s1 s2 s3 : quiet_step s1 s2 → quiet_step s2 s3 → quiet_step s1 s3.
Proof. intros [? ?] [? ?]. split; [congruence|by eapply quiet_world_trans]. Qed.

Lemma quiet_ret {A} (a : A) : quiet (ret a).
Proof. intros s. apply quiet_step_refl. Qed.

Lemma quiet_throw {A} e : quiet (throw (A := A) e).
Proof. intros s. apply quiet_step_refl. Qed.

Lemma quiet_liftR {A} (r : Result A) : quiet (liftR r).
Proof. intros s. apply quiet_step_refl. Qed.

Lemma quiet_throw_main {A} e : quiet (throw_main (A := A) e).
Proof. intros s. split; [done|apply quiet_world_refl]. Qed.

Lemma quiet_bind {A B} (m : M PostState A) (k : A → M PostState B) :
  quiet m → (∀ a, quiet (k a)) → quiet (bind m k).
Proof.
  intros Hm Hk s. unfold bind. specialize (Hm s).
  destruct (m s) as [[a|e] s1]; [|done].
  eapply quiet_step_trans; [exact Hm|apply Hk].
Qed.

Lemma quiet_try_catch {A} (m : M PostState A) (h : Error → M PostState A) :
  quiet m → (∀ e, quiet (h e)) → quiet (try_catch m h).
Proof.
  intros Hm Hh s. unfold try_catch. specialize (Hm s).
  destruct (m s) as [[a|e] s1]; [done|].
  eapply quiet_step_trans; [exact Hm|apply Hh].
Qed.

Lemma quiet_liftW {A} (m : M World A) :
  (∀ w, quiet_world w (m w).2) → quiet (liftW m).
Proof.
  intros Hm s. unfold liftW. specialize (Hm (world s)).
  destruct (m (world s)) as [r w1]. by split.
Qed.

Lemma quiet_readFile env path w : quiet_world w (readFile env path w).2.
Proof.
  unfold readFile. destruct (readFile_error env);
    (apply quiet_world_log; [done|apply quiet_world_refl]).
Qed.

Lemma quiet_fetch env url w : quiet_world w (fetch env url w).2.
Proof.
  unfold fetch. destruct (fetch_answer env);
    (apply quiet_world_log; [done|apply quiet_world_refl]).
Qed.

Lemma quiet_Date_now env w : quiet_world w (Date_now env w).2.
Proof. split; [done|]. exists []. split; [by rewrite app_nil_r|]. intros p. apply not_elem_of_nil. Qed.

Lemma quiet_upload env imageFilename fileType metadata w :
  quiet_world w (upload env imageFilename fileType metadata w).2.
Proof.
  unfold upload. destruct (upload_answer env) as [e|e|e|id len];
    try (apply quiet_world_log; [done|apply quiet_world_refl]).
  destruct (store w !! id); simpl.
  - apply quiet_world_log; [done|apply quiet_world_refl].
  - apply quiet_world_log; [done|].
    eapply quiet_world_trans; [apply (quiet_world_log (CallOpenUploadStream imageFilename));
                               [done|apply quiet_world_refl]|].
    split; [done|]. exists []. split; [by rewrite app_nil_r|]. intros p. apply not_elem_of_nil.
Qed.

Ltac quiet_with known :=
  repeat first
    [ progress intros
    | known
    | apply quiet_ret | apply quiet_throw | apply quiet_throw_main | apply quiet_liftR
    | apply quiet_bind | apply quiet_try_catch
    | apply quiet_liftW; first [ apply quiet_readFile | apply quiet_fetch
                               | apply quiet_Date_now | apply quiet_upload ]
    | assumption
    | match goal with
      | |- quiet (match ?x with _ => _ end) => destruct x
      end ].

Ltac quiet := quiet_with fail.

Lemma quiet_page_entries items : quiet (page_entries items).
Proof.
  induction items as [|item items IH]; cbn [page_entries]; [apply quiet_ret|].
  unfold page_entry. quiet.
Qed.

Lemma quiet_convert_pdf env flaskUrl actualOriginalName :
  quiet (convert_pdf env flaskUrl actualOriginalName).
Proof. unfold convert_pdf, JSON_parse. quiet_with ltac:(apply quiet_page_entries). Qed.

Lemma quiet_upload_image env userId actualOriginalName fileType :
  quiet (upload_image env userId actualOriginalName fileType).
Proof. unfold upload_image. quiet. Qed.

Lemma quiet_POST_process env flaskUrl parsedForm :
  quiet (POST_process env flaskUrl parsedForm).
Proof.
  unfold POST_process.
  quiet_with ltac:(first [apply quiet_convert_pdf | apply quiet_upload_image]).
Qed.

(** ** The upload route: the handler as a whole *)

Lemma POST_not_configured env request w :
  truthy_opt (FLASK_SERVER_URL env) = false → POST env request w = (config_error, w).
Proof. intros H. unfold POST. by rewrite H. Qed.

(** With the service URL configured, the handler is its three stages, the
    outer [catch] and the [finally] block. *)
Lemma POST_configured env request w :
  truthy_opt (FLASK_SERVER_URL env) = true →
  ∃ url,
    POST env request w =
    match POST_connect env (mkPostState w [] None) with
    | (Throw e, s1) => (POST_catch env (mainError s1) e, POST_finally env s1)
    | (Ok _, s1) =>
        match POST_parse env request s1 with
        | (Throw e, s2) => (POST_catch env (mainError s2) e, POST_finally env s2)
        | (Ok parsedForm, s2) =>
            match POST_process env url parsedForm s2 with
            | (Throw e, s3) => (POST_catch env (mainError s3) e, POST_finally env s3)
            | (Ok response, s3) => (response, POST_finally env s3)
            end
        end
    end.
Proof.
  intros H. exists (default EmptyString (FLASK_SERVER_URL env)).
  unfold POST. rewrite H. cbn [negb]. unfold POST_try, bind.
  destruct (POST_connect env _) as [[c|e] s1]; [|done].
  destruct (POST_parse env request s1) as [[pf|e] s2]; [|done].
  by destruct (POST_process env _ pf s2) as [[resp|e] s3].
Qed.

Lemma POST_finally_store env s : store (POST_finally env s) = store (world s).
Proof. reflexivity. Qed.

Lemma POST_finally_trace env s : trace (POST_finally env s) = trace (world s).
Proof. reflexivity. Qed.

Lemma POST_catch_status env me e : status (POST_catch env me e) = 500.
Proof. reflexivity. Qed.

(** C9.  When the environment variable holding the base URL of the
    conversion service is unset, every upload request, whatever it
    carries, is answered 500 with the error key [FLASK_URL_MISSING], and
    the world is left as it was: the form is not parsed, the database not
    asked. *)
Theorem POST_flask_url_missing (env : Env) (request : Request) (w : World) :
  FLASK_SERVER_URL env = None →
  status (POST env request w).1 = 500
  ∧ body (POST env request w).1
    = MessageKey "Server configuration error: Flask server URL not set." "FLASK_URL_MISSING"
  ∧ (POST env request w).2 = w.
Proof.
  intros H. rewrite POST_not_configured; [done|]. by rewrite H.
Qed.

Lemma POST_flask_url_missing_witness :
  status (POST (no_error_env None db_up) image_request empty_world).1 = 500
  ∧ body (POST (no_error_env None db_up) image_request empty_world).1
    = MessageKey "Server configuration error: Flask server URL not set." "FLASK_URL_MISSING"
  ∧ (POST (no_error_env None db_up) image_request empty_world).2 = empty_world.
Proof. apply POST_flask_url_missing. reflexivity. Defined.

(** C7, as amended.  When the service URL is configured, the database
    connection is obtained and no scratch-file write fails while the form
    is parsed: a form without a [userId] text field is answered 400, and so
    is a form without a file under [file]. *)
Theorem POST_missing_userId_or_file_400 (env : Env) (request : Request) (w : World)
    (entries : list (string * FormValue)) :
  truthy_opt (FLASK_SERVER_URL env) = true → db_ready env = true →
  formData request = Ok entries → (∀ n, writeFile_error env n = None) →
  (text_values "userId" entries = [] → status (POST env request w).1 = 400)
  ∧ (file_values "file" entries = [] → status (POST env request w).1 = 400).
Proof.
  intros Hurl Hdb Hform Hno.
  destruct (POST_configured env request w Hurl) as [url ->].
  destruct (POST_connect_spec env (mkPostState w [] None)) as (r1 & me & -> & Hr1).
  rewrite Hdb in Hr1. destruct Hr1 as [c ->].
  destruct (POST_parse env request _) as [r2 s2] eqn:Hparse.
  destruct (POST_parse_spec _ _ _ _ _ Hparse) as (_ & paths & _ & _ & Hr2).
  destruct r2 as [pf|e].
  2: { destruct Hr2 as [_ Hr2]. destruct (Hr2 Hno) as [_ [e' He']]. congruence. }
  destruct Hr2 as (entries' & Hform' & Hfields & Hfiles & _).
  assert (entries' = entries) as -> by congruence.
  unfold POST_process, ret. split.
  - intros Hnone. rewrite Hfields, Hnone. reflexivity.
  - intros Hnone. specialize (Hfiles "file"). rewrite Hnone in Hfiles. simpl in Hfiles.
    rewrite Hfiles. by destruct (negb _).
Qed.

Lemma POST_missing_userId_or_file_400_witness :
  status (POST configured_env (mkRequest (Ok [("file", cat_png)])) empty_world).1 = 400
  ∧ status (POST configured_env (mkRequest (Ok [("userId", Text "alice")]))
              empty_world).1 = 400.
Proof.
  split.
  - apply (proj1 (POST_missing_userId_or_file_400 configured_env
                    (mkRequest (Ok [("file", cat_png)])) empty_world [("file", cat_png)]
                    eq_refl eq_refl eq_refl (fun _ => eq_refl))).
    reflexivity.
  - apply (proj2 (POST_missing_userId_or_file_400 configured_env
                    (mkRequest (Ok [("userId", Text "alice")])) empty_world
                    [("userId", Text "alice")]
                    eq_refl eq_refl eq_refl (fun _ => eq_refl))).
    reflexivity.
Defined.

(** C7 as stated fails: a form without [userId] is answered 500 when the
    service URL is not configured. *)
Lemma POST_no_userId_unconfigured_500 :
  text_values "userId" [("file", cat_png)] = []
  ∧ status (POST (no_error_env None db_up) (mkRequest (Ok [("file", cat_png)]))
              empty_world).1 = 500.
Proof. split; vm_compute; reflexivity. Qed.

Lemma array_includes_elem_of (l : list string) (x : string) :
  array_includes l x = true ↔ x ∈ l.
Proof.
  unfold array_includes. induction l as [|y l IH]; simpl.
  - split; [done|]. by intros ?%elem_of_nil.
  - rewrite orb_true_iff, IH, elem_of_cons, String.eqb_eq. naive_solver.
Qed.

Lemma sent_userId_read entries u :
  sent_userId entries = Some u →
  userId_of (foldl field_step None (text_values "userId" entries)) = Some u
  ∧ truthy u = true.
Proof.
  unfold sent_userId. intros H.
  pose proof (unsettled_foldl None (text_values "userId" entries)) as Hread.
  rewrite H in Hread. apply Hread. by left.
Qed.

(** A file of an unsupported type ends the processing at once. *)
Lemma POST_process_unsupported env url pf s u t :
  files pf !! "file" = Some u → mimetype u = Some t →
  t ≠ SUPPORTED_PDF_TYPE → t ∉ SUPPORTED_IMAGE_TYPES →
  ∃ resp,
    POST_process env url pf s = (Ok resp, s)
    ∧ (truthy_opt (userId_of (fields pf !! "userId")) = true →
       truthy (filepath u) = true → status resp = 415).
Proof.
  intros Hfile Htype Hpdf Himg. unfold POST_process. rewrite Hfile, Htype.
  rewrite bool_decide_false by congruence.
  assert (array_includes SUPPORTED_IMAGE_TYPES t = false) as Hinc.
  { apply not_true_iff_false. by rewrite array_includes_elem_of. }
  cbn [default from_option Datatypes.id]. rewrite Hinc, andb_false_r.
  destruct (truthy_opt (userId_of (fields pf !! "userId"))); cbn [negb].
  - destruct (truthy (filepath u)); cbn [negb]; eexists; (split; [reflexivity|]); done.
  - eexists. split; [reflexivity|]. done.
Qed.

(** C3, as amended.  An upload whose file (the last one sent under [file])
    has a declared type that is neither the PDF type nor a supported image
    type performs no write to the object store, whatever the response: the
    stored objects are unchanged and no upload stream is opened.  The
    response is 415 when the form carries a non-empty [userId], the service
    URL is configured, the database connection is obtained and no
    scratch-file write fails while the form is parsed. *)
Theorem POST_unsupported_type (env : Env) (request : Request) (w : World)
    (entries : list (string * FormValue)) (f : FileValue) :
  formData request = Ok entries → sent_file entries = Some f →
  file_type f ≠ SUPPORTED_PDF_TYPE → file_type f ∉ SUPPORTED_IMAGE_TYPES →
  (store (POST env request w).2 = store w
   ∧ ∃ evs, trace (POST env request w).2 = trace w ++ evs
            ∧ Forall (fun e => store_write e = false) evs)
  ∧ (∀ u, sent_userId entries = Some u →
          truthy_opt (FLASK_SERVER_URL env) = true → db_ready env = true →
          (∀ n, writeFile_error env n = None) →
          status (POST env request w).1 = 415).
Proof.
  intros Hform Hsent Hpdf Himg.
  destruct (truthy_opt (FLASK_SERVER_URL env)) eqn:Hurl.
  2: { rewrite POST_not_configured by done. split; [|done].
       split; [done|]. exists []. by rewrite app_nil_r. }
  destruct (POST_configured env request w Hurl) as [url ->].
  destruct (POST_connect_spec env (mkPostState w [] None)) as (r1 & me & -> & Hr1).
  assert (Forall (fun e => store_write e = false) [CallConnectToDb]) as Hev1
    by (by constructor).
  destruct r1 as [c|e].
  2: { split; [|intros _ _ _ Hdb _; rewrite Hdb in Hr1; by destruct Hr1].
       split; [done|]. by exists [CallConnectToDb]. }
  destruct (POST_parse env request _) as [r2 s2] eqn:Hparse.
  destruct (POST_parse_spec _ _ _ _ _ Hparse) as (Hst & paths & Htr & _ & Hr2).
  cbn [world trace store log] in Hst, Htr.
  assert (Forall (fun e => store_write e = false)
            (CallConnectToDb :: CallFormData :: (WroteFile <$> paths))) as Hev2.
  { do 2 (constructor; [done|]). apply Forall_fmap. by apply Forall_true. }
  destruct r2 as [pf|e].
  2: { split.
       - cbn [fst snd]. rewrite POST_finally_store, POST_finally_trace, Hst, Htr. split; [done|].
         exists (CallConnectToDb :: CallFormData :: (WroteFile <$> paths)).
         split; [|done]. by rewrite <- app_assoc.
       - intros _ _ _ _ Hno. destruct Hr2 as [_ Hr2].
         destruct (Hr2 Hno) as [_ [e' He']]. congruence. }
  destruct Hr2 as (entries' & Hform' & Hfields & Hfiles & _).
  assert (entries' = entries) as -> by congruence.
  specialize (Hfiles "file"). unfold sent_file in Hsent. rewrite Hsent in Hfiles.
  destruct (Hfiles ltac:(done)) as (uf & Hfile & _ & Htype & _ & Hpath).
  destruct (POST_process_unsupported env url pf s2 uf (file_type f)
              Hfile Htype Hpdf Himg) as (resp & -> & Hresp).
  split.
  - cbn [fst snd]. rewrite POST_finally_store, POST_finally_trace, Hst, Htr. split; [done|].
    exists (CallConnectToDb :: CallFormData :: (WroteFile <$> paths)).
    split; [|done]. by rewrite <- app_assoc.
  - intros u [Hu Ht]%sent_userId_read _ _ _. apply Hresp; [|done].
    by rewrite Hfields, Hu.
Qed.

Lemma POST_unsupported_type_witness :
  store (POST configured_env text_request empty_world).2 = store empty_world
  ∧ status (POST configured_env text_request empty_world).1 = 415.
Proof.
  destruct (POST_unsupported_type configured_env text_request empty_world
              [("userId", Text "alice"); ("file", notes_txt)]
              (mkFileValue "notes.txt" "text/plain" 10) eq_refl eq_refl)
    as [[Hstore _] H415].
  - discriminate.
  - vm_compute. intros H. repeat (apply elem_of_cons in H as [H|H]; [discriminate H|]).
    by apply elem_of_nil in H.
  - split; [exact Hstore|].
    apply (H415 "alice"); [reflexivity | reflexivity | reflexivity | intros n; reflexivity].
Defined.

(** C3 as stated fails: such an upload is answered 500 when the service
    URL is not configured. *)
Lemma POST_unsupported_type_unconfigured_500 :
  sent_userId [("userId", Text "alice"); ("file", notes_txt)] = Some "alice"
  ∧ sent_file [("userId", Text "alice"); ("file", notes_txt)]
    = Some (mkFileValue "notes.txt" "text/plain" 10)
  ∧ status (POST (no_error_env None db_up) text_request empty_world).1 = 500.
Proof. repeat split; vm_compute; reflexivity. Qed.

Lemma supported_image_type t :
  t ∈ SUPPORTED_IMAGE_TYPES →
  truthy t = true ∧ t ≠ SUPPORTED_PDF_TYPE ∧ array_includes SUPPORTED_IMAGE_TYPES t = true.
Proof.
  intros H. split_and!; [| |by apply array_includes_elem_of].
  - by repeat (apply elem_of_cons in H as [->|H]; [done|]); apply elem_of_nil in H.
  - by repeat (apply elem_of_cons in H as [->|H]; [done|]); apply elem_of_nil in H.
Qed.

(** The image path: a response of status 201 comes from the ['finish'] of
    the upload stream, and carries the one entry pushed there. *)
Lemma POST_process_image env url pf s u t r s' :
  files pf !! "file" = Some u → mimetype u = Some t → t ∈ SUPPORTED_IMAGE_TYPES →
  POST_process env url pf s = (r, s') →
  match r with
  | Ok resp =>
      status resp = 201 →
      ∃ id len entry doc,
        upload_answer env = UploadFinish id len
        ∧ body resp = Results [entry]
        ∧ fileId entry = Some (JStr (ObjectId.toString id))
        ∧ contentType entry = t
        ∧ store (world s) !! id = None
        ∧ store (world s') !! id = Some doc
        ∧ doc_contentType doc = Some t
  | Throw _ => True
  end.
Proof.
  intros Hfile Htype (Ht & Hpdf & Hinc)%supported_image_type.
  unfold POST_process. rewrite Hfile, Htype.
  rewrite bool_decide_false by congruence.
  cbn [default from_option Datatypes.id truthy_opt]. rewrite Ht, Hinc. cbn [andb].
  destruct (truthy_opt (userId_of (fields pf !! "userId"))); cbn [negb].
  2: { by intros [= <- <-]. }
  destruct (truthy (filepath u)); cbn [negb].
  2: { by intros [= <- <-]. }
  unfold upload_image, bind, try_catch, liftW, Date_now, upload, ret, throw_main.
  cbn [world].
  destruct (upload_answer env) as [e|e|e|id len]; try (by intros [= <- <-]).
  cbn [store next_tick].
  destruct (store (world s) !! id) eqn:Hid; intros [= <- <-]; [done|].
  intros _. eexists id, len, _, _. cbn [body json fileId contentType world].
  do 5 (split; [first [reflexivity|done]|]).
  split; [cbn [store log set_store]; apply lookup_insert_eq | reflexivity].
Qed.

(** C4.  When an upload whose file (the last one sent under [file]) is of
    a supported image type completes with status 201, the body is an array
    of exactly one entry; its [fileId] is the printed form of the id of the
    upload stream that finished: a well-formed identifier, which reads back
    as that id (an id being twelve bytes), new to the store and now naming
    the stored file. *)
Theorem POST_image_success (env : Env) (request : Request) (w : World)
    (entries : list (string * FormValue)) (f : FileValue) :
  formData request = Ok entries → sent_file entries = Some f →
  file_type f ∈ SUPPORTED_IMAGE_TYPES →
  status (POST env request w).1 = 201 →
  ∃ id len entry doc,
    upload_answer env = UploadFinish id len
    ∧ body (POST env request w).1 = Results [entry]
    ∧ fileId entry = Some (JStr (ObjectId.toString id))
    ∧ ObjectId.isValid (ObjectId.toString id) = true
    ∧ (id < 2 ^ 96 → ObjectId.of_string (ObjectId.toString id) = Some id)
    ∧ store w !! id = None
    ∧ store (POST env request w).2 !! id = Some doc
    ∧ doc_contentType doc = Some (file_type f).
Proof.
  intros Hform Hsent Himg.
  destruct (truthy_opt (FLASK_SERVER_URL env)) eqn:Hurl.
  2: { by rewrite POST_not_configured. }
  destruct (POST_configured env request w Hurl) as [url ->].
  destruct (POST_connect_spec env (mkPostState w [] None)) as (r1 & me & -> & _).
  destruct r1 as [c|e]; [|done].
  destruct (POST_parse env request _) as [r2 s2] eqn:Hparse.
  destruct (POST_parse_spec _ _ _ _ _ Hparse) as (Hst & paths & _ & _ & Hr2).
  cbn [world store log] in Hst.
  destruct r2 as [pf|e]; [|done].
  destruct Hr2 as (entries' & Hform' & _ & Hfiles & _).
  assert (entries' = entries) as -> by congruence.
  specialize (Hfiles "file"). unfold sent_file in Hsent. rewrite Hsent in Hfiles.
  destruct (Hfiles ltac:(done)) as (uf & Hfile & _ & Htype & _).
  destruct (POST_process env url pf s2) as [r3 s3] eqn:Hproc.
  pose proof (POST_process_image _ _ _ _ _ _ _ _ Hfile Htype Himg Hproc) as Himage.
  destruct r3 as [resp|e]; [|done]. cbn [fst snd]. intros H201.
  destruct (Himage H201) as (id & len & entry & doc & Hup & Hbody & Hfid & _ & Hnew & Hdoc & Hct).
  exists id, len, entry, doc. rewrite POST_finally_store, <- Hst.
  split_and!; try done; [apply toString_isValid|apply of_string_toString].
Qed.

Lemma POST_image_success_witness :
  ∃ id len entry doc,
    upload_answer configured_env = UploadFinish id len
    ∧ body (POST configured_env image_request empty_world).1 = Results [entry]
    ∧ fileId entry = Some (JStr (ObjectId.toString id))
    ∧ ObjectId.isValid (ObjectId.toString id) = true
    ∧ (id < 2 ^ 96 → ObjectId.of_string (ObjectId.toString id) = Some id)
    ∧ store empty_world !! id = None
    ∧ store (POST configured_env image_request empty_world).2 !! id = Some doc
    ∧ doc_contentType doc = Some "image/png".
Proof.
  apply (POST_image_success configured_env image_request empty_world
           [("userId", Text "alice"); ("file", cat_png)]
           (mkFileValue "my cat.png" "image/png" 10) eq_refl eq_refl).
  - apply elem_of_cons. right. apply elem_of_cons. by left.
  - vm_compute. reflexivity.
Defined.

(** Every entry relayed from the conversion service is a PNG page. *)
Lemma page_entries_png items (s : PostState) rs s' :
  page_entries items s = (Ok rs, s') →
  length rs = length items ∧ Forall (fun e => contentType e = "image/png") rs.
Proof.
  revert s rs s'. induction items as [|item items IH]; intros s rs s'.
  - by intros [= <- <-].
  - cbn [page_entries]. unfold bind at 1.
    destruct (page_entry item s) as [[entry|e] s1] eqn:Hentry; [|done].
    unfold bind. destruct (page_entries items s1) as [[entries|e] s2] eqn:Hrest; [|done].
    intros [= <- <-]. destruct (IH _ _ _ Hrest) as [Hlen Hall].
    split; [simpl; by rewrite Hlen|]. constructor; [|done].
    unfold page_entry, bind, liftR, ret in Hentry.
    by destruct item; simplify_eq/=.
Qed.

Lemma convert_pdf_png env url actualOriginalName s rs s' :
  convert_pdf env url actualOriginalName s = (Ok rs, s') →
  Forall (fun e => contentType e = "image/png") rs.
Proof.
  unfold convert_pdf, try_catch, bind, liftW, fetch, JSON_parse, liftR, throw, throw_main, ret.
  destruct (fetch_answer env) as [e|ok st text parsed]; [done|].
  destruct ok; cbn [negb]; [|done].
  destruct parsed as [flaskResult|]; [|done].
  destruct (get_prop flaskResult "converted_files") as [[[| | | |items|]|]|]; try done.
  destruct (page_entries items _) as [[rs'|e] s1] eqn:Hpages; [|done].
  intros [= <- <-]. by eapply page_entries_png.
Qed.

Lemma POST_process_pdf env url pf s u r s' :
  files pf !! "file" = Some u → mimetype u = Some SUPPORTED_PDF_TYPE →
  POST_process env url pf s = (r, s') →
  match r with
  | Ok resp =>
      status resp = 201 →
      ∃ rs, body resp = Results rs ∧ Forall (fun e => contentType e = "image/png") rs
  | Throw _ => True
  end.
Proof.
  intros Hfile Htype. unfold POST_process. rewrite Hfile, Htype.
  rewrite bool_decide_true by done.
  destruct (truthy_opt (userId_of (fields pf !! "userId"))); cbn [negb].
  2: { by intros [= <- <-]. }
  destruct (truthy (filepath u)); cbn [negb].
  2: { by intros [= <- <-]. }
  unfold bind at 1. destruct (liftW (readFile env (filepath u)) s) as [[[]|e] s1].
  2: { by intros [= <- <-]. }
  unfold bind, ret.
  destruct (convert_pdf env url _ s1) as [[rs|e] s2] eqn:Hconv; intros [= <- <-]; [|done].
  intros _. exists rs. split; [done|]. by eapply convert_pdf_png.
Qed.

(** C5.  When an upload whose file (the last one sent under [file]) is a
    PDF completes with status 201, the body is an array of entries, none or
    more, each with [contentType] equal to [image/png]. *)
Theorem POST_pdf_success (env : Env) (request : Request) (w : World)
    (entries : list (string * FormValue)) (f : FileValue) :
  formData request = Ok entries → sent_file entries = Some f →
  file_type f = SUPPORTED_PDF_TYPE →
  status (POST env request w).1 = 201 →
  ∃ results,
    body (POST env request w).1 = Results results
    ∧ Forall (fun e => contentType e = "image/png") results.
Proof.
  intros Hform Hsent Hpdf.
  destruct (truthy_opt (FLASK_SERVER_URL env)) eqn:Hurl.
  2: { by rewrite POST_not_configured. }
  destruct (POST_configured env request w Hurl) as [url ->].
  destruct (POST_connect_spec env (mkPostState w [] None)) as (r1 & me & -> & _).
  destruct r1 as [c|e]; [|done].
  destruct (POST_parse env request _) as [r2 s2] eqn:Hparse.
  destruct (POST_parse_spec _ _ _ _ _ Hparse) as (_ & paths & _ & _ & Hr2).
  destruct r2 as [pf|e]; [|done].
  destruct Hr2 as (entries' & Hform' & _ & Hfiles & _).
  assert (entries' = entries) as -> by congruence.
  specialize (Hfiles "file"). unfold sent_file in Hsent. rewrite Hsent in Hfiles.
  destruct (Hfiles ltac:(done)) as (uf & Hfile & _ & Htype & _).
  rewrite Hpdf in Htype.
  destruct (POST_process env url pf s2) as [r3 s3] eqn:Hproc.
  pose proof (POST_process_pdf _ _ _ _ _ _ _ Hfile Htype Hproc) as Hpages.
  by destruct r3 as [resp|e].
Qed.

Lemma POST_pdf_success_witness :
  ∃ results,
    body (POST configured_env pdf_request empty_world).1 = Results results
    ∧ Forall (fun e => contentType e = "image/png") results.
Proof.
  apply (POST_pdf_success configured_env pdf_request empty_world
           [("userId", Text "alice"); ("file", scan_pdf)]
           (mkFileValue "scan.pdf" "application/pdf" 10) eq_refl eq_refl eq_refl).
  vm_compute. reflexivity.
Defined.

(** C1, as amended.  When no scratch-file write fails and the file entries
    of the form have distinct keys, none of them [__proto__], every scratch
    file written while the request is processed is, when the handler
    returns, either gone from the disk or one whose [unlinkSync] threw:
    whatever the exit, be it the configuration error, a failed database
    connection, a rejected form, a 400 or 415 answer, a processing error or
    success. *)
Theorem POST_scratch_files_removed (env : Env) (request : Request) (w : World) :
  (∀ n, writeFile_error env n = None) →
  NoDup (file_keys (form_entries request)) →
  "__proto__" ∉ file_keys (form_entries request) →
  ∃ evs,
    trace (POST env request w).2 = trace w ++ evs
    ∧ ∀ p, WroteFile p ∈ evs → p ∈ fs (POST env request w).2 → unlink_fails env p = true.
Proof.
  intros Hno Hnd Hproto.
  destruct (truthy_opt (FLASK_SERVER_URL env)) eqn:Hurl.
  2: { rewrite POST_not_configured by done. exists []. split; [by rewrite app_nil_r|].
       by intros p ?%elem_of_nil. }
  destruct (POST_configured env request w Hurl) as [url ->].
  destruct (POST_connect_spec env (mkPostState w [] None)) as (r1 & me & -> & _).
  destruct r1 as [c|e].
  2: { exists [CallConnectToDb]. split; [done|].
       by intros p [=]%list_elem_of_singleton. }
  destruct (POST_parse env request _) as [r2 s2] eqn:Hparse.
  destruct (POST_parse_spec _ _ _ _ _ Hparse) as (_ & paths & Htr & _ & Hr2).
  cbn [world trace log] in Htr.
  destruct r2 as [pf|e].
  2: { destruct Hr2 as [_ Hr2]. destruct (Hr2 Hno) as [-> _].
       exists [CallConnectToDb; CallFormData]. cbn [fst snd].
       rewrite POST_finally_trace, Htr. split; [by rewrite <- app_assoc|].
       intros p Hp. by repeat (apply elem_of_cons in Hp as [[=]|Hp]); apply elem_of_nil in Hp. }
  destruct Hr2 as (entries & Hform & _ & _ & Hreg).
  unfold form_entries in Hnd, Hproto. rewrite Hform in Hnd, Hproto.
  specialize (Hreg Hnd Hproto).
  pose proof (quiet_POST_process env url pf s2) as Hquiet.
  destruct (POST_process env url pf s2) as [r3 s3].
  destruct Hquiet as (Htemps & Hfs & evs3 & Htr3 & Hevs3). cbn [snd] in *.
  assert (trace (POST_finally env s3)
          = trace w ++ (CallConnectToDb :: CallFormData :: (WroteFile <$> paths) ++ evs3))
    as Htrace.
  { rewrite POST_finally_trace, Htr3, Htr. by rewrite <- !app_assoc. }
  assert (∀ p, WroteFile p ∈ CallConnectToDb :: CallFormData :: (WroteFile <$> paths) ++ evs3 →
               p ∈ fs (POST_finally env s3) → unlink_fails env p = true) as Hleft.
  { intros p Hp Hdisk.
    apply elem_of_cons in Hp as [[=]|Hp]. apply elem_of_cons in Hp as [[=]|Hp].
    apply elem_of_app in Hp as [Hp|Hp]; [|by apply Hevs3 in Hp].
    apply list_elem_of_fmap in Hp as (q & [= <-] & Hq).
    apply (foldl_unlink_left env (tempFilePathsToDelete s3) (fs (world s3))); [|done].
    rewrite Htemps. by apply Hreg. }
  destruct r3 as [resp|e]; eexists; (split; [exact Htrace|exact Hleft]).
Qed.

Lemma POST_scratch_files_removed_witness :
  ∃ evs,
    trace (POST configured_env image_request empty_world).2 = trace empty_world ++ evs
    ∧ ∀ p, WroteFile p ∈ evs →
           p ∈ fs (POST configured_env image_request empty_world).2 →
           unlink_fails configured_env p = true.
Proof.
  apply (POST_scratch_files_removed configured_env image_request empty_world).
  - intros n. reflexivity.
  - vm_compute. apply NoDup_cons. split; [apply not_elem_of_nil|apply NoDup_nil_2].
  - vm_compute. intros H. apply elem_of_cons in H as [H|H]; [discriminate H|].
    by apply elem_of_nil in H.
Defined.

(** C1 as stated fails: the clean-up catches and logs the error of
    [unlinkSync], so a scratch file that cannot be unlinked is still on
    disk when the handler returns, here with status 201. *)
Lemma POST_scratch_file_left_when_unlink_throws :
  status (POST stuck_disk_env image_request empty_world).1 = 201
  ∧ WroteFile "/tmp/nextjs_temp_k3j9x2a_1700000000000_my_cat.png"
    ∈ trace (POST stuck_disk_env image_request empty_world).2
  ∧ "/tmp/nextjs_temp_k3j9x2a_1700000000000_my_cat.png"
    ∈ fs (POST stuck_disk_env image_request empty_world).2.
Proof.
  split; [vm_compute; reflexivity|].
  split; apply (bool_decide_unpack _); vm_compute; exact I.
Qed.

(** Two ways a scratch file outlives the request although every unlink
    succeeds: a second file under the same key replaces the record of the
    first, and a write error leaves the files written before it unlisted. *)
Example POST_leaves_replaced_scratch_file :
  let request :=
    mkRequest (Ok [("userId", Text "alice"); ("file", notes_txt); ("file", cat_png)]) in
  status (POST configured_env request empty_world).1 = 201
  ∧ fs (POST configured_env request empty_world).2
    = {[ "/tmp/nextjs_temp_k3j9x2a_1700000000000_notes.txt" ]}.
Proof. split; vm_compute; reflexivity. Qed.

Example POST_leaves_scratch_file_on_write_error :
  let request :=
    mkRequest (Ok [("userId", Text "alice"); ("file", cat_png); ("extra", notes_txt)]) in
  status (POST second_write_fails_env request empty_world).1 = 500
  ∧ fs (POST second_write_fails_env request empty_world).2
    = {[ "/tmp/nextjs_temp_k3j9x2a_1700000000000_my_cat.png" ]}.
Proof. split; vm_compute; reflexivity. Qed.

(** ** The auth/profile state adapter *)

Section AuthContextFacts.
Import AuthContext.
Local Open Scope nat_scope.

Lemma attached_snoc (h : list Action) (a : Action) :
  attached (h ++ [a]) =
  match a with
  | Attach l => {[l]} ∪ attached h
  | Detach l => attached h ∖ {[l]}
  end.
Proof. unfold attached. rewrite foldl_snoc. by destruct a. Qed.

Lemma take_snoc {A} (n : nat) (h : list A) (a : A) :
  take n (h ++ [a]) = take n h ∨ take n (h ++ [a]) = h ++ [a].
Proof.
  destruct (decide (n ≤ length h)) as [Hle|Hgt].
  - left. by apply take_app_le.
  - right. apply take_ge. rewrite length_app. simpl. lia.
Qed.

Lemma Inv_size s : Inv s → base.size (active s) ≤ 1.
Proof.
  intros [Ha _ Hone]. rewrite Ha. specialize (Hone (length (history s))).
  by rewrite take_ge in Hone.
Qed.

Lemma Inv_mount : Inv mount.
Proof.
  split; [done|by intros l ?%not_elem_of_empty|].
  intros n. cbn [history mount]. rewrite take_nil.
  change (attached []) with (∅ : gset nat). rewrite size_empty. lia.
Qed.

Lemma Inv_set_view u p l i s : Inv s → Inv (set_view u p l i s).
Proof. by intros [? ? ?]. Qed.

Lemma Inv_one_snoc (h : list Action) (a : Action) :
  (∀ n, base.size (attached (take n h)) ≤ 1) → base.size (attached (h ++ [a])) ≤ 1 →
  ∀ n, base.size (attached (take n (h ++ [a]))) ≤ 1.
Proof. intros Hh Ha n. by destruct (take_snoc n h a) as [-> | ->]. Qed.

(** Calling the kept [Unsubscribe] and forgetting it leaves no listener. *)
Lemma Inv_unsubscribe s l :
  Inv s → profileListenerUnsubscribe s = Some l →
  Inv (clear_unsubscribe (unsubscribe l s)) ∧ active (clear_unsubscribe (unsubscribe l s)) = ∅.
Proof.
  intros Hs Hl. pose proof (Inv_size s Hs) as Hsize. destruct Hs as [Ha Hheld Hone].
  assert (active s ∖ {[l]} = ∅) as Hempty.
  { apply set_eq. intros l'. split; [|by intros ?%not_elem_of_empty].
    intros [Hin Hne]%elem_of_difference. apply Hheld in Hin.
    rewrite not_elem_of_singleton in Hne. congruence. }
  split; [|done]. split; simpl.
  - by rewrite attached_snoc, Ha.
  - rewrite Hempty. by intros l' ?%not_elem_of_empty.
  - apply Inv_one_snoc; [done|]. rewrite attached_snoc, <- Ha, Hempty, size_empty. lia.
Qed.

(** Clean-up calls the kept [Unsubscribe] too, and keeps it. *)
Lemma Inv_unsubscribe_keep s l :
  Inv s → profileListenerUnsubscribe s = Some l → Inv (unsubscribe l s).
Proof.
  intros Hs Hl. pose proof (Inv_size s Hs) as Hsize. destruct Hs as [Ha Hheld Hone].
  split; simpl.
  - by rewrite attached_snoc, Ha.
  - intros l' [Hin _]%elem_of_difference. by apply Hheld.
  - apply Inv_one_snoc; [done|]. rewrite attached_snoc, <- Ha.
    etrans; [apply subseteq_size|exact Hsize]. set_solver.
Qed.

(** Attaching when the backend holds no listener gives exactly one. *)
Lemma Inv_onSnapshot s : Inv s → active s = ∅ → Inv (onSnapshot s).
Proof.
  intros [Ha Hheld Hone] Hempty. split; simpl.
  - by rewrite attached_snoc, Ha.
  - rewrite Hempty. intros l Hin. f_equal. set_solver.
  - apply Inv_one_snoc; [done|].
    rewrite attached_snoc, <- Ha, Hempty, (right_id_L ∅ (∪)), size_singleton. lia.
Qed.

Lemma Inv_onAuthStateChanged firebaseUser s :
  Inv s → Inv (onAuthStateChanged firebaseUser s).
Proof.
  intros Hs. unfold onAuthStateChanged.
  set (s1 := match profileListenerUnsubscribe s with
             | Some l => clear_unsubscribe (unsubscribe l s)
             | None => s
             end).
  assert (Inv s1 ∧ active s1 = ∅) as [Hs1 Hempty].
  { subst s1. destruct (profileListenerUnsubscribe s) as [l|] eqn:Hl.
    - by apply Inv_unsubscribe.
    - split; [done|]. apply set_eq. intros l. split; [|by intros ?%not_elem_of_empty].
      intros Hin%(inv_held s Hs). congruence. }
  destruct firebaseUser as [u|].
  - apply Inv_onSnapshot; [by do 2 apply Inv_set_view|done].
  - by do 2 apply Inv_set_view.
Qed.

Lemma Inv_cleanup s : Inv s → Inv (cleanup s).
Proof.
  intros Hs. unfold cleanup. simpl.
  assert (Inv (mkState (user s) (userProfile s) (loading s) (userId s)
                 (profileListenerUnsubscribe s) false (active s) (next_listener s)
                 (history s))) as Hs1 by (by destruct Hs).
  destruct (profileListenerUnsubscribe s) as [l|] eqn:Hl; [|done].
  by apply Inv_unsubscribe_keep.
Qed.

Lemma Inv_step s e : Inv s → Inv (step s e).
Proof.
  intros Hs. destruct e as [firebaseUser|l data|l|]; simpl.
  - unfold firebaseOnAuthStateChanged.
    destruct (authSubscribed s); [by apply Inv_onAuthStateChanged|done].
  - case_bool_decide; [by apply Inv_set_view|done].
  - case_bool_decide; [by apply Inv_set_view|done].
  - by apply Inv_cleanup.
Qed.

Lemma Inv_foldl s events : Inv s → Inv (foldl step s events).
Proof.
  revert s. induction events as [|e events IH]; intros s Hs; [done|].
  simpl. by apply IH, Inv_step.
Qed.

Lemma Inv_run events : Inv (run events).
Proof. apply Inv_foldl, Inv_mount. Qed.

(** The backend actions of one auth-state change: the detachment of the
    kept listener, if any, then the attachment of a new one, if a user is
    present. *)
Lemma onAuthStateChanged_history firebaseUser s :
  history (onAuthStateChanged firebaseUser s) =
  history s
  ++ match profileListenerUnsubscribe s with Some l => [Detach l] | None => [] end
  ++ match firebaseUser with Some _ => [Attach (next_listener s)] | None => [] end.
Proof.
  unfold onAuthStateChanged.
  destruct (profileListenerUnsubscribe s) as [l|], firebaseUser as [u|]; simpl;
    by rewrite <- ?app_assoc, ?app_nil_r.
Qed.

(** C8.  After any sequence of events, the only profile listener the
    backend can hold is the one whose [Unsubscribe] the effect keeps; an
    auth-state change first detaches that listener, if any, and only then
    attaches a new one, if a user is present; and at every point of the
    history of attachments and detachments at most one profile listener
    is attached. *)
Theorem profile_listener_swap (events : list Event) (firebaseUser : option User) :
  let s := run events in
  let s' := step s (AuthStateChanged firebaseUser) in
  (∀ l, l ∈ active s → profileListenerUnsubscribe s = Some l)
  ∧ (authSubscribed s = true →
     history s' =
     history s
     ++ match profileListenerUnsubscribe s with Some l => [Detach l] | None => [] end
     ++ match firebaseUser with Some _ => [Attach (next_listener s)] | None => [] end)
  ∧ (∀ n, base.size (attached (take n (history s'))) ≤ 1)
  ∧ base.size (active s') ≤ 1.
Proof.
  intros s s'. pose proof (Inv_run events) as Hs. fold s in Hs.
  assert (Inv s') as Hs' by (by apply Inv_step).
  split; [apply Hs|]. split.
  - intros Hsub. subst s'. simpl. unfold firebaseOnAuthStateChanged.
    rewrite Hsub. apply onAuthStateChanged_history.
  - split; [apply Hs'|by apply Inv_size].
Qed.

Lemma profile_listener_swap_witness :
  history (run [AuthStateChanged (Some (mkUser "u1")); ProfileSnapshot 0 (Some "profile");
                AuthStateChanged (Some (mkUser "u2"))])
  = [Attach 0; Detach 0; Attach 1].
Proof.
  pose proof (profile_listener_swap
                [AuthStateChanged (Some (mkUser "u1")); ProfileSnapshot 0 (Some "profile")]
                (Some (mkUser "u2"))) as (_ & Hhistory & _).
  apply (Hhistory eq_refl).
Defined.

End AuthContextFacts.

(** * Further properties of the handlers *)

(** ** The by-id route: retrieval *)

Lemma includes_empty (sub : string) : sub ≠ EmptyString → includes EmptyString sub = false.
Proof. by destruct sub. Qed.

(** The headers of a served file. *)
Lemma GET_try_found env s id doc c w :
  ObjectId.of_string s = Some id → store w !! id = Some doc →
  connectToDb_answer env = DbReturns (Some c) → bucket c = true →
  find_error env = None →
  GET_try env s w
  = (Ok (mkResponse 200 (Stream id)
           [("Content-Type",
             match doc_contentType doc with
             | Some ct => if truthy ct then ct else "application/octet-stream"
             | None => "application/octet-stream"
             end);
            ("Content-Length", pretty (doc_length doc));
            ("Cache-Control", "public, max-age=604800, immutable")]),
     log (CallOpenDownloadStream id) (log (CallFind id) (log CallConnectToDb w))).
Proof.
  intros Hid Hdoc Hdb Hbucket Hfind.
  unfold GET_try, bind, connectToDb, new_ObjectId, bucket_find, emit, ret.
  rewrite Hdb, Hid. simpl. rewrite Hbucket, Hfind. simpl. by rewrite Hdoc.
Qed.

(** A stored object is served: with the database reachable, a GET for the
    id of a stored object is answered 200 with the object's stream, its
    content type (or [application/octet-stream] when the document has none
    or an empty one), its length and a one-week immutable cache directive. *)
Theorem GET_serves_stored_object (env : Env) (s : string) (id : ObjectId.t)
    (doc : FileDoc) (c : DbConnection) (w : World) :
  ObjectId.of_string s = Some id → store w !! id = Some doc →
  connectToDb_answer env = DbReturns (Some c) → bucket c = true →
  find_error env = None →
  status (GET env (Some s) w).1 = 200
  ∧ body (GET env (Some s) w).1 = Stream id
  ∧ headers (GET env (Some s) w).1
    = [("Content-Type",
        match doc_contentType doc with
        | Some ct => if truthy ct then ct else "application/octet-stream"
        | None => "application/octet-stream"
        end);
       ("Content-Length", pretty (doc_length doc));
       ("Cache-Control", "public, max-age=604800, immutable")].
Proof.
  intros Hid Hdoc Hdb Hbucket Hfind. unfold GET.
  rewrite (bad_fileId_of_string _ _ Hid). cbn [default from_option Datatypes.id].
  by rewrite (GET_try_found env s id doc c w Hid Hdoc Hdb Hbucket Hfind).
Qed.

Lemma GET_serves_stored_object_witness :
  status (GET (no_error_env None db_up) (Some "0000000000000000000000ff") alice_world).1 = 200
  ∧ body (GET (no_error_env None db_up) (Some "0000000000000000000000ff") alice_world).1
    = Stream 255
  ∧ headers (GET (no_error_env None db_up) (Some "0000000000000000000000ff") alice_world).1
    = [("Content-Type", "image/png"); ("Content-Length", "10");
       ("Cache-Control", "public, max-age=604800, immutable")].
Proof.
  apply (GET_serves_stored_object (no_error_env None db_up) "0000000000000000000000ff" 255
           alice_doc (mkDbConnection true true) alice_world); reflexivity.
Defined.

Lemma GET_catch_status error :
  status (GET_catch error) = 404 ∨ status (GET_catch error) = 500.
Proof. unfold GET_catch. repeat case_match; auto. Qed.

Lemma GET_try_frame env s w :
  store (GET_try env s w).2 = store w ∧ fs (GET_try env s w).2 = fs w.
Proof.
  unfold GET_try, bind, connectToDb, new_ObjectId, bucket_find, emit, ret, throw.
  by repeat case_match; simplify_eq/=.
Qed.

(** A GET only reads: whatever the request and the environment, the stored
    objects and the disk are as before, and the status is 200, 400, 404 or
    500. *)
Theorem GET_reads_only (env : Env) (fileId : option string) (w : World) :
  store (GET env fileId w).2 = store w
  ∧ fs (GET env fileId w).2 = fs w
  ∧ status (GET env fileId w).1 ∈ [200; 400; 404; 500].
Proof.
  unfold GET. destruct (bad_fileId fileId); [split_and!; [done..|set_solver]|].
  pose proof (GET_try_frame env (default EmptyString fileId) w) as [Hst Hfs].
  destruct (GET_try env _ w) as [[resp|e] w'] eqn:Htry; cbn [fst snd] in *;
    (split; [done|]); (split; [done|]).
  - revert Htry.
    unfold GET_try, bind, connectToDb, new_ObjectId, bucket_find, emit, ret, throw.
    repeat case_match; intros; simplify_eq/=; set_solver.
  - destruct (GET_catch_status e) as [-> | ->]; set_solver.
Qed.

(** Status 200 is answered only for a well-formed id of a stored object,
    and the body is the stream of that object. *)
Theorem GET_200_only_for_stored (env : Env) (fileId : option string) (w : World) :
  status (GET env fileId w).1 = 200 →
  ∃ s id doc,
    fileId = Some s ∧ ObjectId.of_string s = Some id ∧ store w !! id = Some doc
    ∧ body (GET env fileId w).1 = Stream id
    ∧ ("Content-Length", pretty (doc_length doc)) ∈ headers (GET env fileId w).1.
Proof.
  unfold GET. destruct fileId as [s|]; [|done].
  destruct (bad_fileId (Some s)); [done|]. cbn [default from_option Datatypes.id].
  destruct (GET_try env s w) as [[resp|e] w'] eqn:Htry; cbn [fst snd].
  2: { by destruct (GET_catch_status e) as [-> | ->]. }
  revert Htry.
  unfold GET_try, bind, connectToDb, new_ObjectId, bucket_find, emit, ret, throw.
  destruct (connectToDb_answer env) as [e|[c|]]; [done| |done]. cbn.
  destruct (ObjectId.of_string s) as [id|] eqn:Hid; [|done]. cbn.
  destruct (bucket c); [|done]. cbn.
  destruct (find_error env); [done|]. cbn.
  destruct (store w !! id) as [doc|] eqn:Hdoc; cbn; intros [= <- <-]; [|done].
  intros _. exists s, id, doc. split_and!; try done. cbn. set_solver.
Qed.

Lemma GET_200_only_for_stored_witness :
  ∃ s id doc,
    Some "0000000000000000000000ff" = Some s ∧ ObjectId.of_string s = Some id
    ∧ store alice_world !! id = Some doc
    ∧ body (GET (no_error_env None db_up) (Some "0000000000000000000000ff") alice_world).1
      = Stream id
    ∧ ("Content-Length", pretty (doc_length doc))
      ∈ headers (GET (no_error_env None db_up) (Some "0000000000000000000000ff")
                   alice_world).1.
Proof.
  apply (GET_200_only_for_stored (no_error_env None db_up)
           (Some "0000000000000000000000ff") alice_world).
  reflexivity.
Defined.

Lemma truthy_includes (msg sub : string) :
  sub ≠ EmptyString → truthy msg && includes msg sub = includes msg sub.
Proof.
  intros Hsub. destruct msg; [|done]. by rewrite includes_empty.
Qed.

Lemma GET_catch_404 error :
  status (GET_catch error) = 404 ↔
  includes (message error) "MongoDB connection error" = false
  ∧ (name error = "MongoGridFSFileNotFoundError"
     ∨ includes (message error) "File not found" = true).
Proof.
  unfold GET_catch. rewrite !truthy_includes by done.
  destruct (includes (message error) "MongoDB connection error"); [naive_solver|].
  destruct (String.eqb_spec (name error) "MongoGridFSFileNotFoundError") as [->|Hne];
    [naive_solver|].
  destruct (includes (message error) "File not found"); naive_solver.
Qed.

(** An error of the driver is answered by the [catch] block: when the
    connection or the lookup rejects with an error, the answer carries the
    error's message and is 404 exactly when the error is a file-not-found
    error of the driver (by name or by message) whose message does not speak
    of a MongoDB connection error; it is 500 otherwise. *)
Theorem GET_driver_error (env : Env) (s : string) (id : ObjectId.t) (e : Error) (w : World) :
  ObjectId.of_string s = Some id →
  connectToDb_answer env = DbThrows e
  ∨ (∃ c, connectToDb_answer env = DbReturns (Some c) ∧ bucket c = true
          ∧ find_error env = Some e) →
  (status (GET env (Some s) w).1 = 404 ∨ status (GET env (Some s) w).1 = 500)
  ∧ (status (GET env (Some s) w).1 = 404 ↔
     includes (message e) "MongoDB connection error" = false
     ∧ (name e = "MongoGridFSFileNotFoundError"
        ∨ includes (message e) "File not found" = true))
  ∧ ∃ m, body (GET env (Some s) w).1 = MessageError m (message e).
Proof.
  intros Hid Herr.
  assert ((GET env (Some s) w).1 = GET_catch e) as ->.
  { unfold GET. rewrite (bad_fileId_of_string _ _ Hid). cbn [default from_option Datatypes.id].
    unfold GET_try, bind, connectToDb, new_ObjectId, bucket_find, emit, ret, throw.
    destruct Herr as [-> | (c & -> & Hb & Hf)]; [done|].
    rewrite Hid. cbn. rewrite Hb, Hf. done. }
  split; [apply GET_catch_status|]. split; [apply GET_catch_404|].
  unfold GET_catch. repeat case_match; by eexists.
Qed.

Lemma GET_driver_error_witness :
  status (GET lookup_fails_env (Some "0000000000000000000000ff") alice_world).1 = 404.
Proof.
  destruct (GET_driver_error lookup_fails_env "0000000000000000000000ff" 255 file_gone
              alice_world) as (_ & H404 & _).
  - reflexivity.
  - right. exists (mkDbConnection true true). repeat split.
  - apply H404. split; [reflexivity|]. left. reflexivity.
Defined.

(** ** The by-id route: deletion *)

Lemma owner_differs_false (doc : FileDoc) (userId : string) :
  owner_differs doc userId = false ↔ doc_metadata doc ≫= md_userId = Some userId.
Proof.
  unfold owner_differs. destruct (doc_metadata doc ≫= md_userId) as [o|]; [|done].
  rewrite negb_false_iff, String.eqb_eq. naive_solver.
Qed.

Lemma DELETE_catch_status error : status (DELETE_catch error) = 500.
Proof. unfold DELETE_catch. by case_match. Qed.

(** What the [try] block of DELETE does to the store, by its outcome. *)
Lemma DELETE_try_store env s u w r w' :
  DELETE_try env s u w = (r, w') →
  fs w' = fs w
  ∧ match r with
    | Ok resp =>
        status resp ∈ [200; 403; 404]
        ∧ (status resp ≠ 200 → store w' = store w)
        ∧ (status resp = 200 →
           ∃ id doc, ObjectId.of_string s = Some id ∧ store w !! id = Some doc
                     ∧ doc_metadata doc ≫= md_userId = Some u
                     ∧ store w' = delete id (store w))
    | Throw _ => store w' = store w
    end.
Proof.
  unfold DELETE_try, bind, connectToDb, new_ObjectId, findOne, bucket_delete, ret, throw.
  destruct (connectToDb_answer env) as [e|[[d b]|]]; cbn; try by intros [= <- <-].
  destruct (ObjectId.of_string s) as [id|]; cbn; [|by intros [= <- <-]].
  destruct d; cbn; [|by intros [= <- <-]].
  destruct (findOne_error env); cbn; [by intros [= <- <-]|].
  destruct (store w !! id) as [doc|] eqn:Hdoc; cbn.
  2: { intros [= <- <-]. cbn. split; [done|]. split; [set_solver|]. done. }
  destruct (owner_differs doc u) eqn:Hown; cbn.
  { intros [= <- <-]. cbn. split; [done|]. split; [set_solver|]. done. }
  destruct b; cbn; [|by intros [= <- <-]].
  destruct (delete_error env); cbn; [by intros [= <- <-]|].
  rewrite Hdoc. intros [= <- <-]. cbn. split; [done|]. split; [set_solver|].
  split; [done|]. intros _. exists id, doc. by apply owner_differs_false in Hown.
Qed.

(** The store after a DELETE, by the status of the answer (a rejected
    [bucket.delete] is taken to have removed nothing). *)
Lemma DELETE_store_by_status (env : Env) (request : DeleteRequest) (w : World) :
  (status (DELETE env request w).1 ≠ 200 → store (DELETE env request w).2 = store w)
  ∧ (status (DELETE env request w).1 = 200 →
     ∃ s u id doc,
       del_fileId request = Some s ∧ del_userId request = Some u
       ∧ ObjectId.of_string s = Some id ∧ store w !! id = Some doc
       ∧ doc_metadata doc ≫= md_userId = Some u
       ∧ store (DELETE env request w).2 = delete id (store w))
  ∧ fs (DELETE env request w).2 = fs w
  ∧ status (DELETE env request w).1 ∈ [200; 400; 401; 403; 404; 500].
Proof.
  unfold DELETE. destruct (del_userId request) as [u|]; cbn [truthy_opt negb].
  2: { split_and!; [done..|set_solver]. }
  destruct (truthy u); cbn [negb].
  2: { split_and!; [done..|set_solver]. }
  destruct (del_fileId request) as [s|]; cbn [bad_fileId].
  2: { split_and!; [done..|set_solver]. }
  destruct (negb (truthy s) || negb (ObjectId.isValid s)).
  { split_and!; [done..|set_solver]. }
  cbn [default from_option Datatypes.id].
  destruct (DELETE_try env s u w) as [r w'] eqn:Htry.
  destruct (DELETE_try_store _ _ _ _ _ _ Htry) as [Hfs Hr].
  destruct r as [resp|e]; cbn [fst snd].
  - destruct Hr as (Hst & Hkeep & Hdel). split; [done|]. split.
    + intros H200. destruct (Hdel H200) as (id & doc & ?). by exists s, u, id, doc.
    + split; [done|]. set_solver.
  - rewrite DELETE_catch_status. split_and!; [done..|set_solver].
Qed.

(** A DELETE removes an object only for its owner: whatever the request
    and the environment, if the stored objects are not as before, then the
    request named a stored object whose recorded owner is the request's
    [userId], and exactly that object is gone; this is so whenever the
    status is 200, and a request answered 400, 401, 403 or 404 changed
    nothing.  The disk is never touched, and the status is one of 200, 400,
    401, 403, 404 and 500. *)
Theorem DELETE_removes_only_for_owner (env : Env) (request : DeleteRequest) (w : World) :
  (store (DELETE env request w).2 ≠ store w ∨ status (DELETE env request w).1 = 200 →
   ∃ s u id doc,
     del_fileId request = Some s ∧ del_userId request = Some u
     ∧ ObjectId.of_string s = Some id ∧ store w !! id = Some doc
     ∧ doc_metadata doc ≫= md_userId = Some u
     ∧ store (DELETE env request w).2 = delete id (store w))
  ∧ (status (DELETE env request w).1 ∈ [400; 401; 403; 404] →
     store (DELETE env request w).2 = store w)
  ∧ fs (DELETE env request w).2 = fs w
  ∧ status (DELETE env request w).1 ∈ [200; 400; 401; 403; 404; 500].
Proof.
  destruct (DELETE_store_by_status env request w) as (Hkeep & Hdel & Hfs & Hst).
  split_and!; [ | | done.. ].
  - intros [Hch|H200]; [|by apply Hdel].
    destruct (decide (status (DELETE env request w).1 = 200)) as [H200|Hne];
      [by apply Hdel|]. by destruct Hch; apply Hkeep.
  - intros Hin. apply Hkeep. intros H200. rewrite H200 in Hin. set_solver.
Qed.

Lemma DELETE_removes_only_for_owner_witness :
  store (DELETE (no_error_env None db_up)
           (mkDeleteRequest (Some "0000000000000000000000ff") (Some "mallory"))
           alice_world).2 = store alice_world.
Proof.
  apply (proj1 (proj2 (DELETE_removes_only_for_owner (no_error_env None db_up)
                  (mkDeleteRequest (Some "0000000000000000000000ff") (Some "mallory"))
                  alice_world))).
  apply (bool_decide_unpack _). vm_compute. exact I.
Defined.

(** The owner deletes: with the database reachable and no driver error, a
    DELETE by the recorded owner of a stored object is answered 200 and
    removes that object and no other. *)
Theorem DELETE_by_owner (env : Env) (request : DeleteRequest) (w : World)
    (s u : string) (id : ObjectId.t) (doc : FileDoc) :
  del_fileId request = Some s → del_userId request = Some u → u ≠ EmptyString →
  ObjectId.of_string s = Some id → store w !! id = Some doc →
  doc_metadata doc ≫= md_userId = Some u →
  db_ready env = true → findOne_error env = None → delete_error env = None →
  status (DELETE env request w).1 = 200
  ∧ store (DELETE env request w).2 = delete id (store w).
Proof.
  intros Hs Hu Hne Hid Hdoc Hown%owner_differs_false Hdb Hfind Hdel.
  unfold DELETE. rewrite Hs, Hu, (bad_fileId_of_string _ _ Hid).
  cbn [truthy_opt default from_option Datatypes.id].
  assert (truthy u = true) as -> by (by destruct u). cbn [negb].
  unfold db_ready in Hdb.
  destruct (connectToDb_answer env) as [e|[[d b]|]] eqn:Hconn; try done.
  apply andb_true_iff in Hdb as [Hb Hd]. cbn in Hb, Hd. subst.
  unfold DELETE_try, bind, connectToDb, new_ObjectId, findOne, bucket_delete, ret, throw.
  rewrite Hconn, Hid. cbn. rewrite Hfind. cbn. rewrite Hdoc, Hown. cbn.
  rewrite Hdel, Hdoc. done.
Qed.

Lemma DELETE_by_owner_witness :
  status (DELETE (no_error_env None db_up)
            (mkDeleteRequest (Some "0000000000000000000000ff") (Some "alice"))
            alice_world).1 = 200
  ∧ store (DELETE (no_error_env None db_up)
             (mkDeleteRequest (Some "0000000000000000000000ff") (Some "alice"))
             alice_world).2 = delete 255 (store alice_world).
Proof.
  apply (DELETE_by_owner (no_error_env None db_up)
           (mkDeleteRequest (Some "0000000000000000000000ff") (Some "alice"))
           alice_world "0000000000000000000000ff" "alice" 255 alice_doc);
    try reflexivity.
  discriminate.
Defined.

(** Nothing to delete: with the database reachable, a DELETE with a
    non-empty [userId] for a well-formed id of no stored object is answered
    404. *)
Theorem DELETE_absent_404 (env : Env) (request : DeleteRequest) (w : World)
    (s u : string) (id : ObjectId.t) (c : DbConnection) :
  del_fileId request = Some s → del_userId request = Some u → u ≠ EmptyString →
  ObjectId.of_string s = Some id → store w !! id = None →
  connectToDb_answer env = DbReturns (Some c) → db c = true → findOne_error env = None →
  status (DELETE env request w).1 = 404.
Proof.
  intros Hs Hu Hne Hid Hdoc Hconn Hd Hfind.
  unfold DELETE. rewrite Hs, Hu, (bad_fileId_of_string _ _ Hid).
  cbn [truthy_opt default from_option Datatypes.id].
  assert (truthy u = true) as -> by (by destruct u). cbn [negb].
  unfold DELETE_try, bind, connectToDb, new_ObjectId, findOne, ret, throw.
  rewrite Hconn, Hid. cbn. rewrite Hd, Hfind. cbn. by rewrite Hdoc.
Qed.

Lemma DELETE_absent_404_witness :
  status (DELETE (no_error_env None db_up)
            (mkDeleteRequest (Some "0000000000000000000000ff") (Some "alice"))
            empty_world).1 = 404.
Proof.
  apply (DELETE_absent_404 (no_error_env None db_up)
           (mkDeleteRequest (Some "0000000000000000000000ff") (Some "alice"))
           empty_world "0000000000000000000000ff" "alice" 255 (mkDbConnection true true));
    try reflexivity.
  discriminate.
Defined.

(** ** The upload route: failures before the file is looked at *)

Lemma POST_connect_failure env s e :
  connect_failure env = Some e →
  POST_connect env s
  = (Throw e, mkPostState (log CallConnectToDb (world s)) (tempFilePathsToDelete s) (Some e)).
Proof.
  unfold connect_failure, POST_connect, try_catch, bind, liftW, connectToDb, throw_main, ret.
  destruct (connectToDb_answer env) as [e'|[c|]]; cbn; [by intros [= ->]| |by intros [= <-]].
  destruct (bucket c && db c); cbn; [done|by intros [= <-]].
Qed.

Lemma POST_connect_ok env s :
  connect_failure env = None →
  ∃ c, POST_connect env s
       = (Ok c, mkPostState (log CallConnectToDb (world s)) (tempFilePathsToDelete s)
                  (mainError s)).
Proof.
  unfold connect_failure, POST_connect, try_catch, bind, liftW, connectToDb, throw_main, ret.
  destruct (connectToDb_answer env) as [e'|[c|]]; cbn; [done| |done].
  destruct (bucket c && db c); cbn; [|done]. intros _. exists c. by destruct s.
Qed.

Lemma connect_failure_db_ready env : connect_failure env = None ↔ db_ready env = true.
Proof.
  unfold connect_failure, db_ready.
  destruct (connectToDb_answer env) as [e'|[c|]]; [done| |done].
  by destruct (bucket c && db c).
Qed.

(** The database is not available: with the service URL configured, when
    [connectToDb] rejects, or resolves to a connection without its bucket
    or its db, the answer is 500 with the message of the error after
    [Server Error: ], the error's name as error key and the request id; the
    form is not read and nothing is written: the only call made is the one
    to [connectToDb]. *)
Theorem POST_db_unavailable (env : Env) (request : Request) (w : World) (e : Error) :
  truthy_opt (FLASK_SERVER_URL env) = true → connect_failure env = Some e →
  (POST env request w).1 = server_error env e
  ∧ (POST env request w).2 = log CallConnectToDb w.
Proof.
  intros Hurl Hfail. destruct (POST_configured env request w Hurl) as [url ->].
  rewrite (POST_connect_failure env _ e Hfail). done.
Qed.

Lemma POST_db_unavailable_witness :
  (POST (no_error_env (Some "http://flask:5000") db_down) image_request empty_world).1
  = json 500 (ServerError "Server Error: connect ECONNREFUSED" "MongoNetworkError" "k3j9x2a")
  ∧ (POST (no_error_env (Some "http://flask:5000") db_down) image_request empty_world).2
    = log CallConnectToDb empty_world.
Proof.
  apply (POST_db_unavailable (no_error_env (Some "http://flask:5000") db_down)
           image_request empty_world
           (mkError "MongoNetworkError" "connect ECONNREFUSED")); reflexivity.
Defined.

(** The form cannot be read: with the service URL configured and the
    database available, when [request.formData()] rejects, the answer is
    500 with the message of the error after
    [Server Error: Failed to parse form data: ], the error key [Error] and
    the request id; no scratch file is written. *)
Theorem POST_form_rejected (env : Env) (request : Request) (w : World) (e : Error) :
  truthy_opt (FLASK_SERVER_URL env) = true → db_ready env = true →
  formData request = Throw e →
  (POST env request w).1
  = json 500 (ServerError ("Server Error: Failed to parse form data: " +:+ message e)
                "Error" (reqId env))
  ∧ (POST env request w).2 = log CallFormData (log CallConnectToDb w).
Proof.
  intros Hurl Hdb%connect_failure_db_ready Hform.
  destruct (POST_configured env request w Hurl) as [url ->].
  destruct (POST_connect_ok env (mkPostState w [] None) Hdb) as [c ->].
  unfold POST_parse, parseFormRevised, try_catch, bind, liftW, emit, throw_main, throw.
  rewrite Hform. done.
Qed.

Lemma POST_form_rejected_witness :
  (POST configured_env (mkRequest (Throw (mkError "TypeError" "Failed to parse body as FormData.")))
     empty_world).1
  = json 500 (ServerError "Server Error: Failed to parse form data: Failed to parse body as FormData."
                "Error" "k3j9x2a")
  ∧ (POST configured_env (mkRequest (Throw (mkError "TypeError" "Failed to parse body as FormData.")))
       empty_world).2
    = log CallFormData (log CallConnectToDb empty_world).
Proof.
  apply (POST_form_rejected configured_env
           (mkRequest (Throw (mkError "TypeError" "Failed to parse body as FormData.")))
           empty_world (mkError "TypeError" "Failed to parse body as FormData."));
    reflexivity.
Defined.

(** ** The upload route: what the processing paths do *)

(** Relaying the pages changes nothing. *)
Lemma page_entries_state items (s : PostState) : (page_entries items s).2 = s.
Proof.
  revert s. induction items as [|item items IH]; intros s; [done|].
  cbn [page_entries]. unfold bind at 1.
  assert (page_entry item s = (Throw (TypeError "originalName"), s)
          ∨ page_entry item s = (Ok (relay_page item), s)) as [-> | ->]; [|done|].
  { unfold page_entry, bind, liftR, ret. destruct item; cbn; auto. }
  unfold bind. specialize (IH s). by destruct (page_entries items s) as [[rs|e] s1].
Qed.

(** The pages relayed are those of the service, one for one. *)
Lemma page_entries_exact items (s : PostState) rs s' :
  page_entries items s = (Ok rs, s') → rs = (relay_page <$> items) ∧ JNull ∉ items.
Proof.
  revert s rs s'. induction items as [|item items IH]; intros s rs s'.
  - intros [= <- <-]. split; [done|]. apply not_elem_of_nil.
  - cbn [page_entries]. unfold bind at 1.
    destruct (page_entry item s) as [[entry|e] s1] eqn:Hentry; [|done].
    unfold bind. destruct (page_entries items s1) as [[entries|e] s2] eqn:Hrest; [|done].
    intros [= <- <-]. destruct (IH _ _ _ Hrest) as [-> Hnull].
    unfold page_entry, bind, liftR, ret in Hentry.
    destruct item; simplify_eq/=; (split; [done|]);
      by intros [[=]|?]%elem_of_cons.
Qed.

(** The conversion path asks the service once and changes nothing else. *)
Lemma convert_pdf_world env url name s :
  world (convert_pdf env url name s).2
  = log (CallFetch (url +:+ "/api/convert-pdf-to-images")) (world s).
Proof.
  unfold convert_pdf, try_catch, bind, liftW, fetch, JSON_parse, liftR, throw, throw_main, ret.
  destruct (fetch_answer env) as [e|ok st text parsed]; [done|].
  destruct ok; cbn [negb]; [|done].
  destruct parsed as [flaskResult|]; [|done].
  destruct (get_prop flaskResult "converted_files") as [[[| | | |items|]|]|]; try done.
  pose proof (page_entries_state items
                (mkPostState (log (CallFetch (url +:+ "/api/convert-pdf-to-images")) (world s))
                   (tempFilePathsToDelete s) (mainError s))) as Hst.
  destruct (page_entries items _) as [[rs'|e] s1]; cbn in *; by subst.
Qed.

(** A converted PDF: the service answered [ok] with JSON whose
    [converted_files] is an array without [null], and the result is its
    pages. *)
Lemma convert_pdf_exact env url name s rs s' :
  convert_pdf env url name s = (Ok rs, s') →
  ∃ st text flaskResult items,
    fetch_answer env = FetchResponse true st text (Some flaskResult)
    ∧ get_prop flaskResult "converted_files" = Ok (Some (JArr items))
    ∧ (JNull ∉ items) ∧ rs = (relay_page <$> items).
Proof.
  unfold convert_pdf, try_catch, bind, liftW, fetch, JSON_parse, liftR, throw, throw_main, ret.
  destruct (fetch_answer env) as [e|ok st text parsed]; [done|].
  destruct ok; cbn [negb]; [|done].
  destruct parsed as [flaskResult|]; [|done].
  destruct (get_prop flaskResult "converted_files") as [[[| | | |items|]|]|] eqn:Hprop;
    try done.
  destruct (page_entries items _) as [[rs'|e] s1] eqn:Hpages; [|done].
  intros [= <- <-]. destruct (page_entries_exact _ _ _ _ Hpages) as [-> Hnull].
  by exists st, text, flaskResult, items.
Qed.

(** The image path, by the way the upload stream ends. *)
Lemma upload_image_exact env u name t s r s' :
  upload_image env u name t s = (r, s') →
  match r with
  | Ok rs =>
      ∃ id len,
        upload_answer env = UploadFinish id len
        ∧ store (world s) !! id = None
        ∧ rs = [mkResultEntry (Some (JStr name)) (Some (JStr (ObjectId.toString id)))
                  (Some (JStr (u +:+ "_" +:+ pretty (clock env (tick (world s))) +:+ "_"
                               +:+ sanitize name))) t None]
        ∧ store (world s')
          = (<[id := mkFileDoc (u +:+ "_" +:+ pretty (clock env (tick (world s))) +:+ "_"
                                +:+ sanitize name) (Some t) len
                       (Some (mkMetadata name (Some u) (toISOString_answer env) t t
                                (reqId env)))]> (store (world s)))
  | Throw _ => store (world s') = store (world s)
  end.
Proof.
  unfold upload_image, bind, try_catch, liftW, Date_now, upload, ret, throw_main.
  cbn [world].
  destruct (upload_answer env) as [e|e|e|id len]; try (by intros [= <- <-]).
  cbn [store next_tick].
  destruct (store (world s) !! id) eqn:Hid; intros [= <- <-]; [done|].
  by exists id, len.
Qed.

(** The processing of a parsed form, case by case: no user id; no file;
    a PDF; a supported image; any other type. *)
Lemma POST_process_cases env url pf s r s' :
  POST_process env url pf s = (r, s') →
  (truthy_opt (userId_of (fields pf !! "userId")) = false ∧ s' = s
   ∧ ∃ m, r = Ok (json 400 (MessageKey m "MISSING_USER_ID")))
  ∨ ∃ u, userId_of (fields pf !! "userId") = Some u ∧ truthy u = true ∧
      (((files pf !! "file" = None
         ∨ ∃ uf, files pf !! "file" = Some uf ∧ truthy (filepath uf) = false)
        ∧ s' = s ∧ ∃ m, r = Ok (json 400 (MessageKey m "NO_FILE_UPLOADED")))
       ∨ ∃ uf, files pf !! "file" = Some uf ∧ truthy (filepath uf) = true ∧
           ((mimetype uf = Some SUPPORTED_PDF_TYPE
             ∧ store (world s') = store (world s)
             ∧ ∀ resp, r = Ok resp →
                 ∃ st text flaskResult items,
                   fetch_answer env = FetchResponse true st text (Some flaskResult)
                   ∧ get_prop flaskResult "converted_files" = Ok (Some (JArr items))
                   ∧ (JNull ∉ items)
                   ∧ resp = json 201 (Results (relay_page <$> items)))
            ∨ (∃ t, mimetype uf = Some t ∧ t ∈ SUPPORTED_IMAGE_TYPES ∧
                 match r with
                 | Ok resp =>
                     ∃ (id : ObjectId.t) (len now : N),
                       upload_answer env = UploadFinish id len
                       ∧ store (world s) !! id = None
                       ∧ resp = json 201
                                  (Results
                                     [mkResultEntry (Some (JStr (name_of uf)))
                                        (Some (JStr (ObjectId.toString id)))
                                        (Some (JStr (u +:+ "_" +:+ pretty now +:+ "_"
                                                     +:+ sanitize (name_of uf)))) t None])
                       ∧ store (world s')
                         = (<[id := mkFileDoc (u +:+ "_" +:+ pretty now +:+ "_"
                                               +:+ sanitize (name_of uf)) (Some t) len
                                      (Some (mkMetadata (name_of uf) (Some u)
                                               (toISOString_answer env) t t (reqId env)))]>
                              (store (world s)))
                 | Throw _ => store (world s') = store (world s)
                 end)
            ∨ (mimetype uf ≠ Some SUPPORTED_PDF_TYPE
               ∧ (∀ t, mimetype uf = Some t → t ∉ SUPPORTED_IMAGE_TYPES)
               ∧ s' = s ∧ ∃ m, r = Ok (json 415 (MessageKey m "UNSUPPORTED_FILE_TYPE"))))).
Proof.
  unfold POST_process. fold (name_of).
  destruct (userId_of (fields pf !! "userId")) as [u|] eqn:Hu; cbn [truthy_opt].
  2: { cbn [negb]. intros [= <- <-]. left. by eauto. }
  destruct (truthy u) eqn:Htu; cbn [negb].
  2: { intros [= <- <-]. left. by eauto. }
  intros Hrun. right. exists u. split; [done|]. split; [done|]. revert Hrun.
  destruct (files pf !! "file") as [uf|] eqn:Hfile.
  2: { intros [= <- <-]. left. by eauto. }
  destruct (truthy (filepath uf)) eqn:Hpath; cbn [negb].
  2: { intros [= <- <-]. left. split; [by eauto|]. by eauto. }
  intros Hrun. right. exists uf. split; [done|]. split; [done|]. revert Hrun.
  change (if truthy_opt (originalFilename uf)
          then default EmptyString (originalFilename uf) else "unknown_file")
    with (name_of uf).
  case_bool_decide as Hpdf.
  - (* a PDF *)
    intros Hrun. left. split; [done|].
    revert Hrun. unfold bind at 1.
    unfold liftW at 1, readFile. destruct (readFile_error env) as [e|]; cbn.
    { intros [= <- <-]. by split. }
    unfold bind, ret.
    pose proof (convert_pdf_world env url (name_of uf)
                  (mkPostState (log (CallReadFile (filepath uf)) (world s))
                     (tempFilePathsToDelete s) (mainError s))) as Hworld.
    destruct (convert_pdf env url (name_of uf) _) as [[rs|e] s2] eqn:Hconv;
      intros [= <- <-]; cbn [snd world] in Hworld; (split; [by rewrite Hworld|]).
    + intros resp [= <-].
      destruct (convert_pdf_exact _ _ _ _ _ _ Hconv) as (st & text & fr & items & ? & ? & ? & ->).
      by exists st, text, fr, items.
    + done.
  - destruct (truthy_opt (mimetype uf)
              && array_includes SUPPORTED_IMAGE_TYPES (default EmptyString (mimetype uf)))
      eqn:Himg.
    + (* a supported image *)
      apply andb_true_iff in Himg as [Ht Hinc].
      destruct (mimetype uf) as [t|] eqn:Hmime; [|done].
      cbn [default from_option Datatypes.id] in *.
      apply array_includes_elem_of in Hinc.
      intros Hrun. right. left. exists t. split; [done|]. split; [done|].
      revert Hrun. unfold bind, ret.
      destruct (upload_image env u (name_of uf) t s) as [[rs|e] s1] eqn:Hup;
        intros [= <- <-]; pose proof (upload_image_exact _ _ _ _ _ _ _ Hup) as Hexact;
        cbn in Hexact; [|done].
      destruct Hexact as (id & len & Hans & Hnew & -> & Hstore).
      by exists id, len, (clock env (tick (world s))).
    + (* any other type *)
      intros [= <- <-]. right. right. split; [done|]. split; [|by eauto].
      intros t Ht Hin. rewrite Ht in Himg.
      cbn [truthy_opt default from_option Datatypes.id] in Himg.
      apply supported_image_type in Hin as (Htruthy & _ & Hinc).
      by rewrite Htruthy, Hinc in Himg.
Qed.

(** ** The upload route: answers and effects of the handler as a whole *)

Lemma POST_catch_shape env me e :
  ∃ m k, POST_catch env me e = json 500 (ServerError m k (reqId env)) ∧ k ≠ EmptyString.
Proof.
  unfold POST_catch. eexists _, _. split; [reflexivity|].
  destruct (truthy (name (default e me))) eqn:Hn; [|done].
  by destruct (name (default e me)).
Qed.

Lemma userId_sent entries u :
  userId_of (foldl field_step None (text_values "userId" entries)) = Some u →
  truthy u = true → sent_userId entries = Some u.
Proof.
  intros Hu Ht. unfold sent_userId.
  pose proof (unsettled_foldl None (text_values "userId" entries) (or_introl eq_refl)) as H.
  destruct (head _) as [x|].
  - destruct H as [Hx _]. congruence.
  - rewrite Hu in H. cbn in H. congruence.
Qed.

Lemma name_of_matches f uf : file_matches f uf → name_of uf = actual_name f.
Proof. intros (Hn & _). unfold name_of, actual_name. by rewrite Hn. Qed.

(** Either the handler fails before it looks at the form's content, with
    status 500 and the store as it was, or it reaches the processing of
    the parsed form. *)
Lemma POST_outcome env request w :
  (status (POST env request w).1 = 500
   ∧ store (POST env request w).2 = store w
   ∧ (body (POST env request w).1
      = MessageKey "Server configuration error: Flask server URL not set." "FLASK_URL_MISSING"
      ∨ ∃ m k, body (POST env request w).1 = ServerError m k (reqId env)
               ∧ k ≠ EmptyString))
  ∨ ∃ url entries pf s2,
      truthy_opt (FLASK_SERVER_URL env) = true ∧ db_ready env = true
      ∧ formData request = Ok entries
      ∧ store (world s2) = store w
      ∧ fields pf !! "userId" = foldl field_step None (text_values "userId" entries)
      ∧ match sent_file entries with
        | Some f => ∃ uf, files pf !! "file" = Some uf ∧ file_matches f uf
        | None => files pf !! "file" = None
        end
      ∧ POST env request w
        = match POST_process env url pf s2 with
          | (Ok response, s3) => (response, POST_finally env s3)
          | (Throw e, s3) => (POST_catch env (mainError s3) e, POST_finally env s3)
          end.
Proof.
  destruct (truthy_opt (FLASK_SERVER_URL env)) eqn:Hurl.
  2: { left. rewrite POST_not_configured by done. split_and!; [done..|by left]. }
  destruct (POST_configured env request w Hurl) as [url ->].
  destruct (POST_connect_spec env (mkPostState w [] None)) as (r1 & me & -> & Hr1).
  destruct r1 as [c|e].
  2: { left. cbn [mainError]. destruct (POST_catch_shape env me e) as (m & k & -> & Hk).
       split_and!; [done..|]. right. by exists m, k. }
  destruct (db_ready env) eqn:Hdb; [|by destruct Hr1].
  destruct (POST_parse env request _) as [r2 s2] eqn:Hparse.
  destruct (POST_parse_spec _ _ _ _ _ Hparse) as (Hst & paths & _ & _ & Hr2).
  cbn [world store log] in Hst.
  destruct r2 as [pf|e].
  2: { left. destruct (POST_catch_shape env (mainError s2) e) as (m & k & -> & Hk).
       cbn [fst snd]. rewrite POST_finally_store. split_and!; [done..|].
       right. by exists m, k. }
  destruct Hr2 as (entries & Hform & Hfields & Hfiles & _).
  right. exists url, entries, pf, s2. split_and!; try done.
  specialize (Hfiles "file"). unfold sent_file.
  destruct (last (file_values "file" entries)); [by apply Hfiles|done].
Qed.

(** The answers of the upload handler: 201 with the array of results; 400
    with the error key [MISSING_USER_ID] or [NO_FILE_UPLOADED]; 415 with
    [UNSUPPORTED_FILE_TYPE]; 500 with [FLASK_URL_MISSING]; or 500 with a
    non-empty error key and the id of the request.  There is no other. *)
Theorem POST_answers (env : Env) (request : Request) (w : World) :
  (status (POST env request w).1 = 201 ∧ ∃ rs, body (POST env request w).1 = Results rs)
  ∨ (status (POST env request w).1 = 400
     ∧ ∃ m, body (POST env request w).1 = MessageKey m "MISSING_USER_ID"
            ∨ body (POST env request w).1 = MessageKey m "NO_FILE_UPLOADED")
  ∨ (status (POST env request w).1 = 415
     ∧ ∃ m, body (POST env request w).1 = MessageKey m "UNSUPPORTED_FILE_TYPE")
  ∨ (status (POST env request w).1 = 500
     ∧ ((∃ m, body (POST env request w).1 = MessageKey m "FLASK_URL_MISSING")
        ∨ ∃ m k, body (POST env request w).1 = ServerError m k (reqId env)
                 ∧ k ≠ EmptyString)).
Proof.
  destruct (POST_outcome env request w)
    as [(H500 & _ & Hbody)|(url & entries & pf & s2 & _ & _ & _ & _ & _ & _ & ->)].
  { do 3 right. split; [done|]. destruct Hbody as [->|?]; [left; by eexists|by right]. }
  destruct (POST_process env url pf s2) as [r s3] eqn:Hproc.
  destruct r as [resp|e].
  2: { do 3 right. destruct (POST_catch_shape env (mainError s3) e) as (m & k & -> & Hk).
       split; [done|]. right. by exists m, k. }
  cbn [fst].
  destruct (POST_process_cases _ _ _ _ _ _ Hproc)
    as [(_ & _ & m & [= ->])
       |(u & _ & _ & [(_ & _ & m & [= ->])
                     |(uf & _ & _ & [(_ & _ & Hpdf)|[(t & _ & _ & Himg)|(_ & _ & _ & m & [= ->])]])])].
  - right. left. split; [done|]. exists m. by left.
  - right. left. split; [done|]. exists m. by right.
  - left. destruct (Hpdf resp eq_refl) as (? & ? & ? & items & _ & _ & _ & ->).
    split; [done|]. by eexists.
  - left. destruct Himg as (id & len & now & _ & _ & -> & _). split; [done|]. by eexists.
  - do 2 right. left. split; [done|]. by exists m.
Qed.

(** Success has its conditions: a 201 is answered only when the service
    URL is configured, the database is available, the form carries a
    non-empty [userId] and, under [file], a file that is a PDF or a
    supported image. *)
Theorem POST_201_only_if (env : Env) (request : Request) (w : World) :
  status (POST env request w).1 = 201 →
  truthy_opt (FLASK_SERVER_URL env) = true ∧ db_ready env = true
  ∧ ∃ entries u f,
      formData request = Ok entries ∧ sent_userId entries = Some u
      ∧ sent_file entries = Some f
      ∧ (file_type f = SUPPORTED_PDF_TYPE ∨ file_type f ∈ SUPPORTED_IMAGE_TYPES).
Proof.
  destruct (POST_outcome env request w)
    as [(H500 & _)|(url & entries & pf & s2 & Hurl & Hdb & Hform & _ & Hfields & Hfiles & ->)].
  { rewrite H500. done. }
  destruct (POST_process env url pf s2) as [r s3] eqn:Hproc.
  destruct r as [resp|e]; [|done]. cbn [fst]. intros H201.
  split; [done|]. split; [done|]. exists entries.
  destruct (POST_process_cases _ _ _ _ _ _ Hproc)
    as [(_ & _ & m & [= ->])
       |(u & Hu & Htu & [(_ & _ & m & [= ->])
                        |(uf & Hfile & _ & Hcase)])]; try done.
  rewrite Hfields in Hu. exists u.
  destruct (sent_file entries) as [f|]; [|congruence].
  destruct Hfiles as (uf' & Hfile' & Hmatch). assert (uf' = uf) as -> by congruence.
  exists f. split; [done|]. split; [by apply userId_sent|]. split; [done|].
  destruct Hmatch as (_ & Hmime & _).
  destruct Hcase as [(Hpdf & _)|[(t & Ht & Hin & _)|(_ & _ & _ & m & [= ->])]]; [| |done].
  - left. congruence.
  - right. congruence.
Qed.

Lemma POST_201_only_if_witness :
  truthy_opt (FLASK_SERVER_URL configured_env) = true ∧ db_ready configured_env = true
  ∧ ∃ entries u f,
      formData image_request = Ok entries ∧ sent_userId entries = Some u
      ∧ sent_file entries = Some f
      ∧ (file_type f = SUPPORTED_PDF_TYPE ∨ file_type f ∈ SUPPORTED_IMAGE_TYPES).
Proof.
  apply (POST_201_only_if configured_env image_request empty_world).
  vm_compute. reflexivity.
Defined.

(** A successful image upload, in full. *)
Lemma POST_image_201 env request w entries f :
  formData request = Ok entries → sent_file entries = Some f →
  file_type f ∈ SUPPORTED_IMAGE_TYPES →
  status (POST env request w).1 = 201 →
  ∃ (id : ObjectId.t) (len : N) (u : string) (now : N),
    sent_userId entries = Some u
    ∧ upload_answer env = UploadFinish id len
    ∧ store w !! id = None
    ∧ (POST env request w).1 = json 201 (Results [image_entry id u now f])
    ∧ store (POST env request w).2 = (<[id := image_doc env u now f len]> (store w)).
Proof.
  intros Hform Hsent Himg.
  destruct (POST_outcome env request w)
    as [(H500 & _)|(url & entries' & pf & s2 & _ & _ & Hform' & Hst & Hfields & Hfiles & ->)].
  { rewrite H500. done. }
  assert (entries' = entries) as -> by congruence.
  rewrite Hsent in Hfiles. destruct Hfiles as (uf & Hfile & Hmatch).
  destruct (POST_process env url pf s2) as [r s3] eqn:Hproc.
  destruct r as [resp|e]; [|done]. cbn [fst snd]. intros H201.
  destruct (POST_process_cases _ _ _ _ _ _ Hproc)
    as [(_ & _ & m & [= ->])
       |(u & Hu & Htu & [(_ & _ & m & [= ->])
                        |(uf' & Hfile' & _ & Hcase)])]; try done.
  assert (uf' = uf) as -> by congruence.
  pose proof Hmatch as (_ & Hmime & _).
  destruct Hcase as [(Hpdf & _)|[(t & Ht & _ & Hup)|(_ & _ & _ & m & [= ->])]]; [| |done].
  { apply supported_image_type in Himg as (_ & Hne & _). congruence. }
  assert (t = file_type f) as -> by congruence.
  destruct Hup as (id & len & now & Hans & Hnew & -> & Hstore).
  rewrite (name_of_matches f uf Hmatch) in Hstore |- *.
  exists id, len, u, now. rewrite Hfields in Hu.
  rewrite POST_finally_store, Hstore, Hst. rewrite Hst in Hnew.
  split_and!; try done. by apply userId_sent.
Qed.

(** What an image upload stores: when an upload of a supported image
    completes with status 201, the store has gained one document under the
    id of the upload stream, with the declared type as content type, a file
    name made of the user id, the time and the sanitised name of the file,
    and metadata recording the original name and, as owner, the first
    non-empty [userId] of the form; the answer is the one entry that names
    this document. *)
Theorem POST_image_stores_document (env : Env) (request : Request) (w : World)
    (entries : list (string * FormValue)) (f : FileValue) :
  formData request = Ok entries → sent_file entries = Some f →
  file_type f ∈ SUPPORTED_IMAGE_TYPES →
  status (POST env request w).1 = 201 →
  ∃ (id : ObjectId.t) (len : N) (u : string) (now : N),
    sent_userId entries = Some u
    ∧ upload_answer env = UploadFinish id len
    ∧ store w !! id = None
    ∧ (POST env request w).1 = json 201 (Results [image_entry id u now f])
    ∧ store (POST env request w).2 = (<[id := image_doc env u now f len]> (store w)).
Proof. apply POST_image_201. Qed.

Lemma POST_image_stores_document_witness :
  ∃ (id : ObjectId.t) (len : N) (u : string) (now : N),
    sent_userId [("userId", Text "alice"); ("file", cat_png)] = Some u
    ∧ upload_answer configured_env = UploadFinish id len
    ∧ store empty_world !! id = None
    ∧ (POST configured_env image_request empty_world).1
      = json 201 (Results [image_entry id u now (mkFileValue "my cat.png" "image/png" 10)])
    ∧ store (POST configured_env image_request empty_world).2
      = (<[id := image_doc configured_env u now (mkFileValue "my cat.png" "image/png" 10) len]>
           (store empty_world)).
Proof.
  apply (POST_image_stores_document configured_env image_request empty_world
           [("userId", Text "alice"); ("file", cat_png)]
           (mkFileValue "my cat.png" "image/png" 10) eq_refl eq_refl).
  - apply elem_of_cons. right. apply elem_of_cons. by left.
  - vm_compute. reflexivity.
Defined.

(** The upload handler adds at most one document and touches no other:
    whatever the request and the environment, the stored objects are as
    before, unless the answer is 201 for a supported image, and then one
    document was added under an id that was free. *)
Theorem POST_adds_at_most_one (env : Env) (request : Request) (w : World) :
  store (POST env request w).2 = store w
  ∨ ∃ entries f id doc,
      status (POST env request w).1 = 201
      ∧ formData request = Ok entries ∧ sent_file entries = Some f
      ∧ file_type f ∈ SUPPORTED_IMAGE_TYPES
      ∧ store w !! id = None
      ∧ store (POST env request w).2 = (<[id := doc]> (store w)).
Proof.
  destruct (POST_outcome env request w)
    as [(_ & Hst & _)|(url & entries & pf & s2 & _ & _ & Hform & Hst & _ & Hfiles & ->)];
    [by left|].
  destruct (POST_process env url pf s2) as [r s3] eqn:Hproc.
  destruct (POST_process_cases _ _ _ _ _ _ Hproc)
    as [(_ & -> & _)
       |(u & _ & _ & [(_ & -> & _)
                     |(uf & Hfile & _ & [(_ & Hsame & _)
                                        |[(t & Ht & Hin & Hup)|(_ & _ & -> & _)]])])];
    try (left; destruct r; cbn [snd]; rewrite POST_finally_store; congruence).
  destruct r as [resp|e]; cbn [fst snd]; rewrite POST_finally_store.
  2: { left. congruence. }
  destruct Hup as (id & len & now & _ & Hnew & -> & Hstore).
  right. destruct (sent_file entries) as [f|] eqn:Hsent; [|congruence].
  destruct Hfiles as (uf' & Hfile' & _ & Hmime & _).
  assert (uf' = uf) as -> by congruence.
  exists entries, f, id. eexists. split; [done|]. split; [done|]. split; [done|].
  split; [congruence|]. rewrite <- Hst. split; [done|]. exact Hstore.
Qed.

(** The pages of a PDF: when an upload of a PDF completes with status 201,
    the conversion service answered [ok] with JSON whose [converted_files]
    is an array, and the body has one entry for each of its items, in
    order, relaying the item's [originalName], [fileId], [filename] and
    [pageNumber]; the handler itself stored nothing. *)
Theorem POST_pdf_relays_pages (env : Env) (request : Request) (w : World)
    (entries : list (string * FormValue)) (f : FileValue) :
  formData request = Ok entries → sent_file entries = Some f →
  file_type f = SUPPORTED_PDF_TYPE →
  status (POST env request w).1 = 201 →
  ∃ st text flaskResult items,
    fetch_answer env = FetchResponse true st text (Some flaskResult)
    ∧ get_prop flaskResult "converted_files" = Ok (Some (JArr items))
    ∧ body (POST env request w).1 = Results (relay_page <$> items)
    ∧ store (POST env request w).2 = store w.
Proof.
  intros Hform Hsent Hpdf.
  destruct (POST_outcome env request w)
    as [(H500 & _)|(url & entries' & pf & s2 & _ & _ & Hform' & Hst & Hfields & Hfiles & ->)].
  { rewrite H500. done. }
  assert (entries' = entries) as -> by congruence.
  rewrite Hsent in Hfiles. destruct Hfiles as (uf & Hfile & _ & Hmime & _).
  destruct (POST_process env url pf s2) as [r s3] eqn:Hproc.
  destruct r as [resp|e]; [|done]. cbn [fst snd]. intros H201.
  destruct (POST_process_cases _ _ _ _ _ _ Hproc)
    as [(_ & _ & m & [= ->])
       |(u & Hu & Htu & [(_ & _ & m & [= ->])
                        |(uf' & Hfile' & _ & Hcase)])]; try done.
  assert (uf' = uf) as -> by congruence.
  destruct Hcase as [(_ & Hsame & Hpages)|[(t & Ht & Hin & _)|(Hno & _)]].
  - destruct (Hpages resp eq_refl) as (st & text & fr & items & Hans & Hprop & _ & ->).
    exists st, text, fr, items. rewrite POST_finally_store. split_and!; try done. congruence.
  - apply supported_image_type in Hin as (_ & Hne & _). congruence.
  - congruence.
Qed.

Lemma POST_pdf_relays_pages_witness :
  ∃ st text flaskResult items,
    fetch_answer configured_env = FetchResponse true st text (Some flaskResult)
    ∧ get_prop flaskResult "converted_files" = Ok (Some (JArr items))
    ∧ body (POST configured_env pdf_request empty_world).1 = Results (relay_page <$> items)
    ∧ store (POST configured_env pdf_request empty_world).2 = store empty_world.
Proof.
  apply (POST_pdf_relays_pages configured_env pdf_request empty_world
           [("userId", Text "alice"); ("file", scan_pdf)]
           (mkFileValue "scan.pdf" "application/pdf" 10) eq_refl eq_refl eq_refl).
  vm_compute. reflexivity.
Defined.

(** ** Upload, then retrieval or deletion *)

Lemma GET_found env s id doc c w :
  ObjectId.of_string s = Some id → store w !! id = Some doc →
  connectToDb_answer env = DbReturns (Some c) → bucket c = true →
  find_error env = None →
  (GET env (Some s) w).1
  = mkResponse 200 (Stream id)
      [("Content-Type",
        match doc_contentType doc with
        | Some ct => if truthy ct then ct else "application/octet-stream"
        | None => "application/octet-stream"
        end);
       ("Content-Length", pretty (doc_length doc));
       ("Cache-Control", "public, max-age=604800, immutable")].
Proof.
  intros Hid Hdoc Hdb Hbucket Hfind. unfold GET.
  rewrite (bad_fileId_of_string _ _ Hid). cbn [default from_option Datatypes.id].
  by rewrite (GET_try_found env s id doc c w Hid Hdoc Hdb Hbucket Hfind).
Qed.

(** What was uploaded can be fetched: after an image upload answered 201,
    a GET for the [fileId] of the answer, with the database reachable, is
    answered 200 with the declared type of the image as content type and
    the stored length.  (The id of an upload stream is twelve bytes.) *)
Theorem upload_then_GET (env env' : Env) (request : Request) (w : World)
    (entries : list (string * FormValue)) (f : FileValue) (c : DbConnection) :
  formData request = Ok entries → sent_file entries = Some f →
  file_type f ∈ SUPPORTED_IMAGE_TYPES →
  status (POST env request w).1 = 201 →
  (∀ id len, upload_answer env = UploadFinish id len → id < 2 ^ 96) →
  connectToDb_answer env' = DbReturns (Some c) → bucket c = true →
  find_error env' = None →
  ∃ entry s id len,
    body (POST env request w).1 = Results [entry] ∧ fileId entry = Some (JStr s)
    ∧ upload_answer env = UploadFinish id len
    ∧ (GET env' (Some s) (POST env request w).2).1
      = mkResponse 200 (Stream id)
          [("Content-Type", file_type f); ("Content-Length", pretty len);
           ("Cache-Control", "public, max-age=604800, immutable")].
Proof.
  intros Hform Hsent Himg H201 Hbytes Hdb Hbucket Hfind.
  destruct (POST_image_201 env request w entries f Hform Hsent Himg H201)
    as (id & len & u & now & _ & Hans & _ & Hresp & Hstore).
  exists (image_entry id u now f), (ObjectId.toString id), id, len.
  rewrite Hresp. split; [done|]. split; [done|]. split; [done|].
  rewrite (GET_found env' (ObjectId.toString id) id (image_doc env u now f len) c).
  - cbn. by apply supported_image_type in Himg as (-> & _).
  - apply of_string_toString. by eapply Hbytes.
  - rewrite Hstore. apply lookup_insert_eq.
  - done.
  - done.
  - done.
Qed.

Lemma upload_then_GET_witness :
  ∃ entry s id len,
    body (POST configured_env image_request empty_world).1 = Results [entry]
    ∧ fileId entry = Some (JStr s)
    ∧ upload_answer configured_env = UploadFinish id len
    ∧ (GET configured_env (Some s) (POST configured_env image_request empty_world).2).1
      = mkResponse 200 (Stream id)
          [("Content-Type", "image/png"); ("Content-Length", pretty len);
           ("Cache-Control", "public, max-age=604800, immutable")].
Proof.
  apply (upload_then_GET configured_env configured_env image_request empty_world
           [("userId", Text "alice"); ("file", cat_png)]
           (mkFileValue "my cat.png" "image/png" 10) (mkDbConnection true true)
           eq_refl eq_refl).
  - apply elem_of_cons. right. apply elem_of_cons. by left.
  - vm_compute. reflexivity.
  - intros id len [= <- _]. vm_compute. reflexivity.
  - reflexivity.
  - reflexivity.
  - reflexivity.
Defined.

(** The uploader can delete: after an image upload answered 201, a DELETE
    for the [fileId] of the answer by the user id the form carried, with
    the database available and no driver error, is answered 200, and the
    stored objects are again those before the upload. *)
Theorem upload_then_DELETE (env env' : Env) (request : Request) (w : World)
    (entries : list (string * FormValue)) (f : FileValue) :
  formData request = Ok entries → sent_file entries = Some f →
  file_type f ∈ SUPPORTED_IMAGE_TYPES →
  status (POST env request w).1 = 201 →
  (∀ id len, upload_answer env = UploadFinish id len → id < 2 ^ 96) →
  db_ready env' = true → findOne_error env' = None → delete_error env' = None →
  ∃ entry s u,
    body (POST env request w).1 = Results [entry] ∧ fileId entry = Some (JStr s)
    ∧ sent_userId entries = Some u
    ∧ status (DELETE env' (mkDeleteRequest (Some s) (Some u)) (POST env request w).2).1 = 200
    ∧ store (DELETE env' (mkDeleteRequest (Some s) (Some u)) (POST env request w).2).2
      = store w.
Proof.
  intros Hform Hsent Himg H201 Hbytes Hdb Hfind Hdel.
  destruct (POST_image_201 env request w entries f Hform Hsent Himg H201)
    as (id & len & u & now & Hu & Hans & Hnew & Hresp & Hstore).
  exists (image_entry id u now f), (ObjectId.toString id), u.
  rewrite Hresp. split; [done|]. split; [done|]. split; [done|].
  assert (ObjectId.of_string (ObjectId.toString id) = Some id) as Hid
    by (apply of_string_toString; by eapply Hbytes).
  assert (truthy u = true) as Htu.
  { by apply sent_userId_read in Hu as [_ ?]. }
  unfold DELETE. cbn [del_userId del_fileId truthy_opt].
  rewrite Htu, (bad_fileId_of_string _ _ Hid). cbn [negb default from_option Datatypes.id].
  unfold db_ready in Hdb.
  destruct (connectToDb_answer env') as [e|[[d b]|]] eqn:Hconn; try done.
  apply andb_true_iff in Hdb as [Hb Hd]. cbn in Hb, Hd. subst.
  unfold DELETE_try, bind, connectToDb, new_ObjectId, findOne, bucket_delete, ret, throw.
  assert (store (POST env request w).2 !! id = Some (image_doc env u now f len)) as Hdoc
    by (rewrite Hstore; apply lookup_insert_eq).
  rewrite Hconn, Hid. cbn. rewrite Hfind. cbn. rewrite Hdoc.
  unfold owner_differs. cbn. rewrite String.eqb_refl. cbn.
  rewrite Hdel. cbn. rewrite Hdoc. cbn. split; [done|].
  rewrite Hstore. by apply delete_insert_id.
Qed.

Lemma upload_then_DELETE_witness :
  ∃ entry s u,
    body (POST configured_env image_request empty_world).1 = Results [entry]
    ∧ fileId entry = Some (JStr s)
    ∧ sent_userId [("userId", Text "alice"); ("file", cat_png)] = Some u
    ∧ status (DELETE configured_env (mkDeleteRequest (Some s) (Some u))
                (POST configured_env image_request empty_world).2).1 = 200
    ∧ store (DELETE configured_env (mkDeleteRequest (Some s) (Some u))
               (POST configured_env image_request empty_world).2).2
      = store empty_world.
Proof.
  apply (upload_then_DELETE configured_env configured_env image_request empty_world
           [("userId", Text "alice"); ("file", cat_png)]
           (mkFileValue "my cat.png" "image/png" 10) eq_refl eq_refl).
  - apply elem_of_cons. right. apply elem_of_cons. by left.
  - vm_compute. reflexivity.
  - intros id len [= <- _]. vm_compute. reflexivity.
  - reflexivity.
  - reflexivity.
  - reflexivity.
Defined.

(** ** The auth/profile adapter: what it shows *)

Section AuthContextView.
Import AuthContext.
Local Open Scope nat_scope.

Lemma Inv_active_empty s : Inv s → profileListenerUnsubscribe s = None → active s = ∅.
Proof.
  intros Hs Hnone. apply set_eq. intros l. split; [|by intros ?%not_elem_of_empty].
  intros Hin%(inv_held s Hs). congruence.
Qed.

Lemma Inv_active_kept s l : Inv s → profileListenerUnsubscribe s = Some l → active s ∖ {[l]} = ∅.
Proof.
  intros Hs Hl. apply set_eq. intros l'. split; [|by intros ?%not_elem_of_empty].
  intros [Hin Hne]%elem_of_difference. apply (inv_held s Hs) in Hin.
  rewrite not_elem_of_singleton in Hne. congruence.
Qed.

(** The state after the callback of an auth-state change. *)
Lemma onAuthStateChanged_view firebaseUser s :
  Inv s →
  user (onAuthStateChanged firebaseUser s) = firebaseUser
  ∧ userId (onAuthStateChanged firebaseUser s) = uid <$> firebaseUser
  ∧ userProfile (onAuthStateChanged firebaseUser s) = None
  ∧ loading (onAuthStateChanged firebaseUser s)
    = match firebaseUser with Some _ => true | None => false end
  ∧ active (onAuthStateChanged firebaseUser s)
    = match firebaseUser with Some _ => {[next_listener s]} | None => ∅ end
  ∧ authSubscribed (onAuthStateChanged firebaseUser s) = authSubscribed s
  ∧ next_listener s ≤ next_listener (onAuthStateChanged firebaseUser s).
Proof.
  intros Hs. unfold onAuthStateChanged.
  destruct (profileListenerUnsubscribe s) as [l|] eqn:Hl.
  - pose proof (Inv_active_kept s l Hs Hl) as Hempty.
    destruct firebaseUser as [u|]; cbn; rewrite Hempty;
      split_and!; try done; try (by rewrite (right_id_L ∅ (∪))); lia.
  - pose proof (Inv_active_empty s Hs Hl) as Hempty.
    destruct firebaseUser as [u|]; cbn; rewrite Hempty;
      split_and!; try done; try (by rewrite (right_id_L ∅ (∪))); lia.
Qed.

Lemma ViewInv_mount : ViewInv mount.
Proof. split; try done. Qed.

Lemma ViewInv_step s e : Inv s → ViewInv s → ViewInv (step s e).
Proof.
  intros Hs Hv. pose proof Hv as [Hid Hprof Hlis Hfresh Hdet].
  destruct e as [firebaseUser|l data|l|]; unfold step.
  - unfold firebaseOnAuthStateChanged. destruct (authSubscribed s) eqn:Hsub; [|exact Hv].
    destruct (onAuthStateChanged_view firebaseUser s Hs)
      as (Hu & Hui & Hp & _ & Ha & Hsub' & Hn).
    split.
    + by rewrite Hu, Hui.
    + done.
    + intros Hnone. rewrite Ha. rewrite Hu in Hnone. by subst.
    + intros l. rewrite Ha. destruct firebaseUser; [|by intros ?%not_elem_of_empty].
      intros ->%elem_of_singleton. unfold onAuthStateChanged.
      destruct (profileListenerUnsubscribe s); cbn; lia.
    + rewrite Hsub', Hsub. done.
  - case_bool_decide as Hin; [|exact Hv]. split; cbn; try done.
    intros Hnone. apply Hlis in Hnone. rewrite Hnone in Hin. by apply not_elem_of_empty in Hin.
  - case_bool_decide as Hin; [|exact Hv]. by split.
  - unfold cleanup. cbn.
    assert (match profileListenerUnsubscribe s with
            | Some l => active s ∖ {[l]}
            | None => active s
            end = ∅) as Hempty.
    { destruct (profileListenerUnsubscribe s) as [l|] eqn:Hl;
        [by apply Inv_active_kept|by apply Inv_active_empty]. }
    destruct (profileListenerUnsubscribe s) as [l|]; split; cbn; try done;
      rewrite ?Hempty; try done; by intros ? ?%not_elem_of_empty.
Qed.

Lemma ViewInv_foldl s events : Inv s → ViewInv s → ViewInv (foldl step s events).
Proof.
  revert s. induction events as [|e events IH]; intros s Hs Hv; [done|].
  cbn. apply IH; [by apply Inv_step|by apply ViewInv_step].
Qed.

Lemma ViewInv_run events : ViewInv (run events).
Proof. apply ViewInv_foldl; [apply Inv_mount|apply ViewInv_mount]. Qed.

(** What the provider shows is consistent: after any sequence of events,
    the user id is the uid of the user, without a user there is no profile
    and no profile listener, and the number of a listener the backend holds
    was given out before. *)
Theorem AuthProvider_view_consistent (events : list Event) :
  userId (run events) = uid <$> user (run events)
  ∧ (user (run events) = None →
     userProfile (run events) = None ∧ active (run events) = ∅)
  ∧ (∀ l, l ∈ active (run events) → l < next_listener (run events)).
Proof.
  destruct (ViewInv_run events) as [Hid Hprof Hlis Hfresh _].
  split; [done|]. split; [|done]. intros Hnone. by split; auto.
Qed.

(** An auth-state change, while the provider is mounted, shows the user
    and the user's id, drops the profile shown, and leaves exactly the new
    listener attached when a user is present (with loading on until its
    first snapshot), or no listener at all when there is none (with loading
    off). *)
Theorem AuthProvider_auth_change (events : list Event) (firebaseUser : option User) :
  authSubscribed (run events) = true →
  let s' := run (events ++ [AuthStateChanged firebaseUser]) in
  user s' = firebaseUser ∧ userId s' = uid <$> firebaseUser ∧ userProfile s' = None
  ∧ match firebaseUser with
    | Some _ => loading s' = true ∧ active s' = {[next_listener (run events)]}
                ∧ profileListenerUnsubscribe s' = Some (next_listener (run events))
    | None => loading s' = false ∧ active s' = ∅ ∧ profileListenerUnsubscribe s' = None
    end.
Proof.
  intros Hsub s'. subst s'. unfold run. rewrite foldl_snoc. fold (run events).
  cbn. unfold firebaseOnAuthStateChanged. rewrite Hsub.
  destruct (onAuthStateChanged_view firebaseUser (run events) (Inv_run events))
    as (Hu & Hui & Hp & Hl & Ha & _).
  split; [done|]. split; [done|]. split; [done|].
  destruct firebaseUser as [u|]; rewrite Hl, Ha;
    (split; [reflexivity|]); (split; [reflexivity|]);
    unfold onAuthStateChanged;
    destruct (profileListenerUnsubscribe (run events)) eqn:Hkept; cbn; by rewrite ?Hkept.
Qed.

Lemma AuthProvider_auth_change_witness :
  let s' := run ([AuthStateChanged (Some (mkUser "u1"))] ++ [AuthStateChanged None]) in
  user s' = None ∧ userId s' = None ∧ userProfile s' = None
  ∧ loading s' = false ∧ active s' = ∅ ∧ profileListenerUnsubscribe s' = None.
Proof.
  apply (AuthProvider_auth_change [AuthStateChanged (Some (mkUser "u1"))] None).
  reflexivity.
Defined.

(** A snapshot that comes late is dropped: after an auth-state change, a
    snapshot or an error of a listener that was attached before the change
    leaves the state as it is. *)
Theorem AuthProvider_stale_snapshot (events : list Event) (firebaseUser : option User)
    (l : nat) (data : option UserProfile) :
  authSubscribed (run events) = true → l ∈ active (run events) →
  let s' := run (events ++ [AuthStateChanged firebaseUser]) in
  step s' (ProfileSnapshot l data) = s' ∧ step s' (ProfileError l) = s'.
Proof.
  intros Hsub Hin s'.
  assert (l ∉ active s') as Hout.
  { subst s'. unfold run. rewrite foldl_snoc. fold (run events).
    cbn. unfold firebaseOnAuthStateChanged. rewrite Hsub.
    destruct (onAuthStateChanged_view firebaseUser (run events) (Inv_run events))
      as (_ & _ & _ & _ & -> & _).
    destruct firebaseUser; [|apply not_elem_of_empty].
    intros ->%elem_of_singleton.
    apply (view_fresh _ (ViewInv_run events)) in Hin. lia. }
  cbn. by rewrite !bool_decide_false.
Qed.

Lemma AuthProvider_stale_snapshot_witness :
  let s' := run ([AuthStateChanged (Some (mkUser "u1"))]
                 ++ [AuthStateChanged (Some (mkUser "u2"))]) in
  step s' (ProfileSnapshot 0 (Some "profile of u1")) = s' ∧ step s' (ProfileError 0) = s'.
Proof.
  apply (AuthProvider_stale_snapshot [AuthStateChanged (Some (mkUser "u1"))]
           (Some (mkUser "u2")) 0 (Some "profile of u1")).
  - reflexivity.
  - vm_compute. done.
Defined.

Lemma released_step s0 s e : Inv s → released s0 s → released s0 (step s e).
Proof.
  intros Hs (Hu & Hp & Hl & Hi & Hsub & Ha).
  destruct e as [firebaseUser|l data|l|]; unfold step.
  - unfold firebaseOnAuthStateChanged. by rewrite Hsub.
  - rewrite bool_decide_false; [done|]. rewrite Ha. apply not_elem_of_empty.
  - rewrite bool_decide_false; [done|]. rewrite Ha. apply not_elem_of_empty.
  - unfold cleanup. cbn.
    destruct (profileListenerUnsubscribe s) as [l|]; cbn; rewrite ?Ha;
      split_and!; try done. set_solver.
Qed.

Lemma released_foldl s0 s events : Inv s → released s0 s → released s0 (foldl step s events).
Proof.
  revert s. induction events as [|e events IH]; intros s Hs Hrel; [done|].
  cbn. apply IH; [by apply Inv_step|by apply released_step].
Qed.

(** Unmounting releases the listeners for good: once the clean-up of the
    effect has run, no profile listener is attached, and whatever comes
    afterwards, be it an auth-state change, a snapshot or an error, neither
    attaches one nor changes what the provider shows. *)
Theorem AuthProvider_unmount_releases (events events' : list Event) :
  released (run (events ++ [Unmount])) (run ((events ++ [Unmount]) ++ events')).
Proof.
  unfold run at 2. rewrite foldl_app. fold (run (events ++ [Unmount])).
  apply released_foldl; [apply Inv_run|].
  unfold run. rewrite foldl_snoc. fold (run events). cbn.
  pose proof (Inv_run events) as Hs. unfold cleanup. cbn.
  destruct (profileListenerUnsubscribe (run events)) as [l|] eqn:Hl; cbn;
    split_and!; try done.
  - by apply (Inv_active_kept (run events)).
  - by apply (Inv_active_empty (run events)).
Qed.

Lemma AuthProvider_view_consistent_witness :
  userProfile (run [AuthStateChanged (Some (mkUser "u1")); ProfileSnapshot 0 (Some "p");
                    AuthStateChanged None; ProfileSnapshot 0 (Some "late")]) = None.
Proof.
  apply (proj1 (proj2 (AuthProvider_view_consistent
                         [AuthStateChanged (Some (mkUser "u1")); ProfileSnapshot 0 (Some "p");
                          AuthStateChanged None; ProfileSnapshot 0 (Some "late")]))).
  reflexivity.
Defined.

End AuthContextView.

(** ** The upload route: the form and its scratch files *)

(** A user id that is empty is no user id: with the service URL
    configured, the database available and the form parsed, a form none of
    whose [userId] text fields is non-empty is answered 400 with the error
    key [MISSING_USER_ID], whatever file it carries. *)
Theorem POST_no_usable_userId (env : Env) (request : Request) (w : World)
    (entries : list (string * FormValue)) :
  truthy_opt (FLASK_SERVER_URL env) = true → db_ready env = true →
  formData request = Ok entries → (∀ n, writeFile_error env n = None) →
  sent_userId entries = None →
  (POST env request w).1
  = json 400 (MessageKey "Missing userId in form data." "MISSING_USER_ID").
Proof.
  intros Hurl Hdb Hform Hno Hnone.
  destruct (POST_configured env request w Hurl) as [url ->].
  destruct (POST_connect_spec env (mkPostState w [] None)) as (r1 & me & -> & Hr1).
  rewrite Hdb in Hr1. destruct Hr1 as [c ->].
  destruct (POST_parse env request _) as [r2 s2] eqn:Hparse.
  destruct (POST_parse_spec _ _ _ _ _ Hparse) as (_ & paths & _ & _ & Hr2).
  destruct r2 as [pf|e].
  2: { destruct Hr2 as [_ Hr2]. destruct (Hr2 Hno) as [_ [e' He']]. congruence. }
  destruct Hr2 as (entries' & Hform' & Hfields & _).
  assert (entries' = entries) as -> by congruence.
  pose proof (unsettled_foldl None (text_values "userId" entries) (or_introl eq_refl)) as Hu.
  unfold sent_userId in Hnone. rewrite Hnone in Hu.
  unfold POST_process. rewrite Hfields, Hu. reflexivity.
Qed.

Lemma POST_no_usable_userId_witness :
  (POST configured_env
     (mkRequest (Ok [("userId", Text EmptyString); ("file", cat_png);
                     ("userId", Text EmptyString)])) empty_world).1
  = json 400 (MessageKey "Missing userId in form data." "MISSING_USER_ID").
Proof.
  apply (POST_no_usable_userId configured_env _ empty_world
           [("userId", Text EmptyString); ("file", cat_png); ("userId", Text EmptyString)]);
    reflexivity.
Defined.

Lemma sent_files_cons (k : string) (v : FormValue) rest :
  sent_files ((k, v) :: rest) =
  match v with
  | File f => f :: sent_files rest
  | Text _ => sent_files rest
  end.
Proof. unfold sent_files. simpl. by destruct v. Qed.

Lemma parse_entry_file_written env key f acc w :
  writeFile_error env (S (tick w)) = None →
  parse_entry env key (File f) acc w
  = (Ok (mkCustomParsedForm (fields acc)
           (set_file key
              (mkCustomUploadedFile (temp_path env (clock env (tick w)) f)
                 (Some (file_name f)) (Some (file_type f)) (file_size f)) (files acc))),
     log (WroteFile (temp_path env (clock env (tick w)) f))
       (set_fs (union {[temp_path env (clock env (tick w)) f]}) (next_tick (next_tick w)))).
Proof.
  intros Hno. unfold parse_entry, bind, try_catch, Date_now, writeFile, ret, throw.
  cbn. by rewrite Hno.
Qed.

Lemma parse_entries_paths env entries acc w :
  (∀ n, writeFile_error env n = None) →
  ∃ nows,
    length nows = length (sent_files entries)
    ∧ trace (parse_entries env entries acc w).2
      = trace w ++ (WroteFile <$> zip_with (temp_path env) nows (sent_files entries))
    ∧ fs (parse_entries env entries acc w).2
      = list_to_set (zip_with (temp_path env) nows (sent_files entries)) ∪ fs w.
Proof.
  intros Hno. revert acc w. induction entries as [|[k [s|f]] rest IH]; intros acc w.
  - exists []. cbn. split; [done|]. split; [by rewrite app_nil_r|].
    by rewrite (left_id_L ∅ (∪)).
  - cbn [parse_entries]. unfold bind. rewrite parse_entry_text, sent_files_cons. apply IH.
  - cbn [parse_entries]. unfold bind.
    rewrite (parse_entry_file_written env k f acc w (Hno _)), sent_files_cons.
    destruct (IH (mkCustomParsedForm (fields acc)
                    (set_file k
                       (mkCustomUploadedFile (temp_path env (clock env (tick w)) f)
                          (Some (file_name f)) (Some (file_type f)) (file_size f))
                       (files acc)))
                (log (WroteFile (temp_path env (clock env (tick w)) f))
                   (set_fs (union {[temp_path env (clock env (tick w)) f]})
                      (next_tick (next_tick w)))))
      as (nows & Hlen & Htr & Hfs).
    exists (clock env (tick w) :: nows). cbn [length zip_with fmap list_fmap list_to_set].
    split; [by rewrite Hlen|]. rewrite Htr, Hfs. cbn.
    split; [by rewrite <- app_assoc|set_solver].
Qed.

(** One scratch file for each file of the form: when no write fails,
    parsing the form writes, for each of its files and in their order, one
    file in the temporary directory, named [nextjs_temp_], the request id,
    the time, and the sanitised name of the file; it makes no other call
    after reading the form and leaves the store alone. *)
Theorem parseFormRevised_scratch_files (env : Env) (request : Request) (w : World)
    (entries : list (string * FormValue)) :
  formData request = Ok entries → (∀ n, writeFile_error env n = None) →
  ∃ nows,
    length nows = length (sent_files entries)
    ∧ trace (parseFormRevised env request w).2
      = trace w ++ CallFormData
                   :: (WroteFile <$> zip_with (temp_path env) nows (sent_files entries))
    ∧ fs (parseFormRevised env request w).2
      = list_to_set (zip_with (temp_path env) nows (sent_files entries)) ∪ fs w
    ∧ store (parseFormRevised env request w).2 = store w.
Proof.
  intros Hform Hno. unfold parseFormRevised, bind, emit. rewrite Hform.
  destruct (parse_entries_paths env entries (mkCustomParsedForm ∅ ∅) (log CallFormData w) Hno)
    as (nows & Hlen & Htr & Hfs).
  exists nows. split; [done|]. rewrite Htr, Hfs. cbn.
  split; [by rewrite <- app_assoc|]. split; [done|].
  destruct (parse_entries env entries _ _) as [r w'] eqn:Hrun.
  destruct (parse_entries_world _ _ _ _ _ _ Hrun) as [Hst _]. cbn. by rewrite Hst.
Qed.

Lemma parseFormRevised_scratch_files_witness :
  ∃ nows,
    length nows = length (sent_files [("userId", Text "alice"); ("file", cat_png)])
    ∧ trace (parseFormRevised configured_env image_request empty_world).2
      = trace empty_world
        ++ CallFormData
           :: (WroteFile <$> zip_with (temp_path configured_env) nows
                               (sent_files [("userId", Text "alice"); ("file", cat_png)]))
    ∧ fs (parseFormRevised configured_env image_request empty_world).2
      = list_to_set (zip_with (temp_path configured_env) nows
                       (sent_files [("userId", Text "alice"); ("file", cat_png)]))
        ∪ fs empty_world
    ∧ store (parseFormRevised configured_env image_request empty_world).2 = store empty_world.
Proof.
  apply (parseFormRevised_scratch_files configured_env image_request empty_world
           [("userId", Text "alice"); ("file", cat_png)] eq_refl).
  intros n. reflexivity.
Defined.

(** The sanitised name of a file has the length of the name, is made of
    characters of [[a-zA-Z0-9_.-]] only, and is the name itself when the
    name is already so made; hence sanitising twice is sanitising once. *)
Theorem sanitize_safe (s : string) :
  all_safe (sanitize s) = true
  ∧ String.length (sanitize s) = String.length s
  ∧ (all_safe s = true → sanitize s = s)
  ∧ sanitize (sanitize s) = sanitize s.
Proof.
  assert (∀ t, all_safe t = true → sanitize t = t) as Hid.
  { induction t as [|c t IH]; [done|]. cbn. intros [Hc Ht]%andb_true_iff.
    by rewrite Hc, IH. }
  assert (all_safe (sanitize s) = true) as Hsafe.
  { induction s as [|c s IH]; [done|]. cbn. rewrite IH, andb_true_r.
    by destruct (is_safe_char c) eqn:Hc. }
  split; [done|]. split; [|split; [apply Hid|exact (Hid _ Hsafe)]].
  clear Hid Hsafe. induction s as [|c s IH]; [done|]. cbn. by rewrite IH.
Qed.

Lemma sanitize_safe_witness : sanitize "report-2024_v1.png" = "report-2024_v1.png".
Proof.
  apply (proj1 (proj2 (proj2 (sanitize_safe "report-2024_v1.png")))). reflexivity.
Defined.

Lemma parse_entries_first_write_error env entries acc w f rest err :
  sent_files entries = f :: rest → writeFile_error env (S (tick w)) = Some err →
  parse_entries env entries acc w
  = (Throw (new_Error ("Failed to write temporary file " +:+ file_name f +:+ ": "
                       +:+ message err)),
     next_tick (next_tick w)).
Proof.
  intros Hfiles Herr. revert acc. induction entries as [|[k [s|f']] more IH]; intros acc.
  - done.
  - rewrite sent_files_cons in Hfiles. cbn [parse_entries]. unfold bind.
    rewrite parse_entry_text. by apply IH.
  - rewrite sent_files_cons in Hfiles. injection Hfiles as -> _.
    cbn [parse_entries]. unfold bind, parse_entry, bind, try_catch, Date_now, writeFile, throw.
    cbn. by rewrite Herr.
Qed.

(** A scratch file cannot be written: with the service URL configured and
    the database available, when the write of the first file of the form
    fails, the answer is 500 with the error key [Error], the request id and
    a message that names the file and carries the message of the error;
    nothing is stored. *)
Theorem POST_first_write_fails (env : Env) (request : Request) (w : World)
    (entries : list (string * FormValue)) (f : FileValue) (rest : list FileValue)
    (err : Error) :
  truthy_opt (FLASK_SERVER_URL env) = true → db_ready env = true →
  formData request = Ok entries → sent_files entries = f :: rest →
  writeFile_error env (S (tick w)) = Some err →
  (POST env request w).1
  = json 500
      (ServerError ("Server Error: Failed to parse form data: Failed to write temporary file "
                    +:+ file_name f +:+ ": " +:+ message err) "Error" (reqId env))
  ∧ store (POST env request w).2 = store w.
Proof.
  intros Hurl Hdb%connect_failure_db_ready Hform Hfiles Herr.
  destruct (POST_configured env request w Hurl) as [url ->].
  destruct (POST_connect_ok env (mkPostState w [] None) Hdb) as [c ->].
  unfold POST_parse, parseFormRevised, try_catch, bind, liftW, emit, throw_main, throw.
  rewrite Hform. cbn [world].
  rewrite (parse_entries_first_write_error env entries _
             (log CallFormData (log CallConnectToDb w)) f rest err Hfiles Herr).
  done.
Qed.

Lemma POST_first_write_fails_witness :
  (POST (sample_env (Some "http://flask:5000") db_up
           (fun _ => Some (mkError "Error" "ENOSPC: no space left on device"))
           (fun _ => false))
     image_request empty_world).1
  = json 500
      (ServerError ("Server Error: Failed to parse form data: Failed to write temporary file "
                    +:+ "my cat.png" +:+ ": " +:+ "ENOSPC: no space left on device")
         "Error" "k3j9x2a")
  ∧ store (POST (sample_env (Some "http://flask:5000") db_up
                   (fun _ => Some (mkError "Error" "ENOSPC: no space left on device"))
                   (fun _ => false))
             image_request empty_world).2 = store empty_world.
Proof.
  apply (POST_first_write_fails
           (sample_env (Some "http://flask:5000") db_up
              (fun _ => Some (mkError "Error" "ENOSPC: no space left on device"))
              (fun _ => false))
           image_request empty_world [("userId", Text "alice"); ("file", cat_png)]
           (mkFileValue "my cat.png" "image/png" 10) []
           (mkError "Error" "ENOSPC: no space left on device")); reflexivity.
Defined.
